(** * Shallow embedding of [pipeline_costum.py]

    The two inference pipelines [DDPMPipeline_Costum] (unconditional) and
    [DDPMPipeline_Costum_ClsEmb] (class conditional) of the repository.

    Modelling choices:
    - a torch tensor is a record of dtype, shape and row-major data; an
      element is a finite value, an infinity or NaN, a finite value being a
      rational [Q] (floating point rounding is not modelled);
    - the tensors of one call live in a small store ([frame]), so that Python's
      reference semantics (the [clone] of the initial noise, a scheduler that
      updates its [sample] argument in place) are visible;
    - the collaborators (torch's random number generator, the network and the
      scheduler) are the variables of section [Pipelines]: a random generator
      is its state [Z] threaded through every draw; the network reads its
      inputs and returns a new tensor; the scheduler step may overwrite its
      [sample] argument in place and returns either a new tensor or that same
      object as [prev_sample];
    - persistent effects of a call (the scheduler's [timesteps] attribute,
      torch's global generator) are fields of [pipeline]; the call returns the
      new [pipeline] even when post-processing raises. *)

From Stdlib Require Import ZArith QArith Qround Bool Lia Lqa.
From Stdlib Require Import String.
From stdpp Require Import base gmap list.
From Stdlib Require Import List.
Import ListNotations.

(** ** Tensors *)

Inductive dtype := Float32 | Int64 | UInt8.

(** A floating point element: finite (a rational), infinite, or NaN. *)
Inductive scalar := Fin (q : Q) | PInf | NInf | NaN.

Record tensor := mkTensor {
  t_dtype : dtype;
  t_shape : list nat;
  t_data : list scalar
}.

Definition empty_tensor : tensor := mkTensor Float32 [] [].

(** Number of elements of a shape. *)
Definition numel (shape : list nat) : nat := fold_right Nat.mul 1%nat shape.

(** Element-wise operation, shape and dtype kept. *)
Definition tmap (f : scalar -> scalar) (x : tensor) : tensor :=
  mkTensor (t_dtype x) (t_shape x) (map f (t_data x)).

Definition qmax (a b : Q) : Q := if Qle_bool a b then b else a.
Definition qmin (a b : Q) : Q := if Qle_bool a b then a else b.

(** Maximum and minimum of two elements as torch computes them: NaN
    propagates. *)
Definition sc_max (a b : scalar) : scalar :=
  match a, b with
  | NaN, _ | _, NaN => NaN
  | PInf, _ | _, PInf => PInf
  | NInf, y | y, NInf => y
  | Fin x, Fin y => Fin (qmax x y)
  end.

Definition sc_min (a b : scalar) : scalar :=
  match a, b with
  | NaN, _ | _, NaN => NaN
  | NInf, _ | _, NInf => NInf
  | PInf, y | y, PInf => y
  | Fin x, Fin y => Fin (qmin x y)
  end.

(** [v * c] for a constant [c]: an infinity times 0 is NaN. *)
Definition sc_mul (v : scalar) (c : Q) : scalar :=
  match v with
  | Fin x => Fin (x * c)
  | PInf => if Qeq_bool c 0 then NaN else if Qle_bool 0 c then PInf else NInf
  | NInf => if Qeq_bool c 0 then NaN else if Qle_bool 0 c then NInf else PInf
  | NaN => NaN
  end.

(** [v + c] for a finite constant [c]. *)
Definition sc_add (v : scalar) (c : Q) : scalar :=
  match v with Fin x => Fin (x + c) | w => w end.

(** [x.clamp(lo, hi)]: torch computes [min(max(x, lo), hi)]; NaN stays NaN. *)
Definition clamp (lo hi : Q) (x : tensor) : tensor :=
  tmap (fun v => sc_min (sc_max v (Fin lo)) (Fin hi)) x.

(** [x.to(device)], [x.cpu()], [x.numpy()]: the values are kept. *)
Definition to_device (x : tensor) : tensor := x.

(** [x.permute(0, 2, 3, 1)]: a 4-dimensional tensor only, otherwise torch
    raises ([None]). *)
Definition permute_0231 (x : tensor) : option tensor :=
  match t_shape x with
  | [b; c; h; w] =>
      Some (mkTensor (t_dtype x) [b; h; w; c]
        (flat_map (fun i =>
          flat_map (fun j =>
            flat_map (fun k =>
              map (fun ch => nth (((i * c + ch) * h + j) * w + k) (t_data x) (Fin 0))
                  (seq 0 c))
              (seq 0 w))
            (seq 0 h))
          (seq 0 b)))
  | _ => None
  end.

(** numpy's [round]: half to even. *)
Definition np_round (x : Q) : Z :=
  let f := Qfloor x in
  let r := (x - inject_Z f)%Q in
  if Qeq_bool r (1#2) then (if Z.even f then f else f + 1)%Z
  else if Qle_bool r (1#2) then f else (f + 1)%Z.

(** [(x * 255).round().astype("uint8")] on one element. The cast of a
    non-finite float to an integer is undefined in C; on x86-64 it gives the
    "integer indefinite" value, whose low byte is 0. *)
Definition to_uint8 (x : scalar) : scalar :=
  match x with
  | Fin q => Fin (inject_Z (Z.modulo (np_round (q * 255)) 256))
  | _ => Fin 0
  end.

(** Split [l] into [k] consecutive pieces of length [n]. *)
Fixpoint chunks (n k : nat) (l : list scalar) : list (list scalar) :=
  match k with
  | O => []
  | S k' => firstn n l :: chunks n k' (skipn n l)
  end.

(** The modes of PIL images made from uint8 arrays. *)
Inductive pil_mode := ModeL | ModeLA | ModeRGB | ModeRGBA.

(** [PIL.Image.fromarray(a, mode)] on a uint8 array [a] of shape [dims]: the
    shape of the image's pixel array ([np.asarray(img).shape]), or [None]
    when PIL raises. Without [mode], the mode is looked up from
    [(1, 1) + shape[2:]] (TypeError when it is not in PIL's table); more
    dimensions than the mode allows raise ValueError;
    [size = 1 if ndim == 1 else shape[1], shape[0]] raises IndexError on a
    0-dimensional array and makes a 1-dimensional array of [n] values an
    image of height [n] and width 1. *)
Definition pil_array_shape (mode : option pil_mode) (dims : list nat) : option (list nat) :=
  let m := match mode with
           | Some m => Some m
           | None =>
               match dims with
               | [_; _; c] =>
                   if Nat.eqb c 2 then Some ModeLA
                   else if Nat.eqb c 3 then Some ModeRGB
                   else if Nat.eqb c 4 then Some ModeRGBA
                   else None
               | _ :: _ :: _ :: _ :: _ => None
               | _ => Some ModeL
               end
           end in
  match m with
  | None => None
  | Some m =>
      let ndmax := match m with ModeL => 2%nat | ModeRGB => 3%nat | _ => 4%nat end in
      if Nat.ltb ndmax (length dims) then None
      else match dims with
           | [] => None
           | [n] => Some [n; 1%nat]
           | _ => Some dims
           end
  end.

(** [diffusers.DiffusionPipeline.numpy_to_pil]: a 3-dimensional array gets a
    batch axis; values are scaled to uint8; when the last axis has size 1,
    every entry of the first axis is squeezed and made a mode "L" image,
    otherwise it is given to [Image.fromarray] as it is. A PIL image is
    represented by its uint8 pixel array; [None] when numpy or PIL raises
    ([images.shape[-1]] on a 0-dimensional array, or [fromarray]). *)
Definition numpy_to_pil (x : tensor) : option (list tensor) :=
  let x := match t_shape x with
           | [_; _; _] => mkTensor (t_dtype x) (1%nat :: t_shape x) (t_data x)
           | _ => x
           end in
  let px := map to_uint8 (t_data x) in
  match t_shape x with
  | [] => None
  | b :: dims =>
      let pic_shape :=
        if Nat.eqb (last (b :: dims) 0%nat) 1
        then pil_array_shape (Some ModeL) (filter (fun d => negb (Nat.eqb d 1)) dims)
        else pil_array_shape None dims in
      mapM (fun d => option_map (fun sh => mkTensor UInt8 sh d) pic_shape)
           (chunks (numel dims) b px)
  end.

(** ** The store of the tensors of one call *)

Record frame := mkFrame {
  fr_store : gmap nat tensor;
  fr_next : nat
}.

Definition empty_frame : frame := mkFrame ∅ 0.

Definition alloc (v : tensor) (fr : frame) : nat * frame :=
  (fr_next fr, mkFrame (<[fr_next fr := v]> (fr_store fr)) (S (fr_next fr))).

Definition read (fr : frame) (l : nat) : tensor := default empty_tensor (fr_store fr !! l).

Definition write (l : nat) (v : tensor) (fr : frame) : frame :=
  mkFrame (<[l := v]> (fr_store fr)) (fr_next fr).

(** ** Pipeline objects *)

(** [unet.config.sample_size]: an int or a tuple. (A configuration whose
    [sample_size] is [None] makes both calls raise TypeError at
    [*unet.config.sample_size] before anything else; it is not represented.) *)
Inductive sample_size_t := SizeInt (n : nat) | SizeTuple (dims : list nat).

Record unet_config := mkConfig {
  in_channels : nat;
  sample_size : sample_size_t
}.

(** [self.unet]: the network itself, or a wrapper with a [.module] attribute
    (multi-GPU case); the configuration is read from the inner network. *)
Inductive unet_handle := UnetModule (c : unet_config) | UnetWrapped (c : unet_config).

Definition unet_config_of (u : unet_handle) : unet_config :=
  match u with UnetModule c => c | UnetWrapped c => c end.

Inductive device := CPU | CUDA | MPS.

Record pipeline := mkPipeline {
  p_unet : unet_handle;
  p_device : device;
  p_timesteps : list Z;    (* self.scheduler.timesteps *)
  p_global_rng : Z          (* torch's default generator *)
}.

(** Result of [scheduler.step]: [prev_sample] is a new tensor, or the very
    [sample] object that was passed in. *)
Inductive prev_sample := PrevFresh (x : tensor) | PrevSameObject.

Record step_output := mkStepOutput {
  so_prev : prev_sample;
  so_sample_after : tensor;  (* contents of the [sample] argument after the step *)
  so_gen : Z
}.

(** Observable events of a call, in order. *)
Inductive event :=
| EvSetTimesteps (n : nat)
| EvRandint (labels : tensor)
| EvUnet (t : Z) (sample : tensor) (class_labels : option tensor)
| EvStep (t : Z).

Inductive images := ImgTensor (x : tensor) | ImgPIL (pics : list tensor).

Inductive result :=
| ImagePipelineOutput (imgs : images)
| Tuple1 (imgs : images)
| Tuple2 (imgs : images) (noise_init : tensor)
| Tuple3 (imgs : images) (noise_init : tensor) (class_sample : tensor).

(** Arguments of [__call__] once the defaults are filled in. *)
Record call_args := mkArgs {
  batch_size : nat;
  generator : option Z;            (* None, or the state of the torch.Generator *)
  num_inference_steps : nat;
  output_type : option string;     (* Optional[str] *)
  return_dict : bool
}.

(** Keyword arguments as written by the caller: [None] = omitted. *)
Record call_kwargs := mkKwargs {
  kw_batch_size : option nat;
  kw_generator : option (option Z);
  kw_num_inference_steps : option nat;
  kw_output_type : option (option string);
  kw_return_dict : option bool
}.

(** The defaults of the signature of both [__call__]s. *)
Definition resolve (k : call_kwargs) : call_args :=
  mkArgs (default 1%nat (kw_batch_size k))
         (default None (kw_generator k))
         (default 1000%nat (kw_num_inference_steps k))
         (default (Some "pil"%string) (kw_output_type k))
         (default true (kw_return_dict k)).

Definition with_num_inference_steps (k : call_kwargs) (n : option nat) : call_kwargs :=
  mkKwargs (kw_batch_size k) (kw_generator k) n (kw_output_type k) (kw_return_dict k).

Record call_ret := mkRet {
  cr_pipeline : pipeline;
  cr_generator : option Z;   (* final state of the caller's generator *)
  cr_trace : list event;
  cr_output : option result  (* None: an exception was raised *)
}.

Definition is_output_type (ot : option string) (s : string) : bool :=
  match ot with Some s' => String.eqb s' s | None => false end.

(** State of the loop once [image], [noise_init] (and [class_sample]) exist
    and the denoising loop has run. *)
Record loop_state := mkLoop {
  ls_pipeline : pipeline;
  ls_frame : frame;
  ls_image : nat;
  ls_noise_init : nat;
  ls_class_sample : option nat;
  ls_gen : Z;
  ls_trace : list event
}.

Section Pipelines.

(** [torch.randn] on [n] elements: the values drawn and the new state of the
    generator. *)
Variable randn : nat -> Z -> list scalar * Z.
(** [generator.random()]: one raw draw and the new state. *)
Variable random_bits : Z -> Z * Z.
(** [self.unet(sample, t, class_labels, return_dict=False)[0]]. *)
Variable unet_forward : tensor -> Z -> option tensor -> tensor.
(** [self.scheduler.step(model_output, t, sample, generator=g)]. *)
Variable scheduler_step : tensor -> Z -> tensor -> Z -> step_output.
(** [self.scheduler.set_timesteps(n)] followed by [self.scheduler.timesteps]. *)
Variable set_timesteps : nat -> list Z.

(** [diffusers.utils.torch_utils.randn_tensor(shape, generator)] with one
    generator. *)
Definition randn_tensor (shape : list nat) (g : Z) : tensor * Z :=
  let (vals, g') := randn (numel shape) g in (mkTensor Float32 shape vals, g').

(** [torch.randint(low, high, size)] on CPU: every element is
    [random() % (high - low) + low] (torch's [uniform_int_from_to]). *)
Fixpoint randint_vals (low high : Z) (n : nat) (g : Z) : list scalar * Z :=
  match n with
  | O => ([], g)
  | S n' =>
      let (v, g1) := random_bits g in
      let (vs, g2) := randint_vals low high n' g1 in
      (Fin (inject_Z (v mod (high - low) + low)) :: vs, g2)
  end.

Definition randint (low high : Z) (size : list nat) (g : Z) : tensor * Z :=
  let (vs, g') := randint_vals low high (numel size) g in (mkTensor Int64 size vs, g').

(** [image_shape] as computed at the top of both [__call__]s. *)
Definition image_shape (b : nat) (c : unet_config) : list nat :=
  match sample_size c with
  | SizeInt n => [b; in_channels c; n; n]
  | SizeTuple dims => b :: in_channels c :: dims
  end.

(** The [if self.device.type == "mps"] block. *)
Definition sample_noise (p : pipeline) (shape : list nat) (g : Z) : tensor * Z :=
  match p_device p with
  | MPS => let (x, g') := randn_tensor shape g in (to_device x, g')
  | _ => randn_tensor shape g
  end.

(** The generator every draw of the call uses: the caller's, or torch's
    global one when [generator=None]. *)
Definition gen_state (p : pipeline) (a : call_args) : Z :=
  match generator a with Some s => s | None => p_global_rng p end.

Definition initial_noise (p : pipeline) (a : call_args) : tensor :=
  fst (sample_noise p (image_shape (batch_size a) (unet_config_of (p_unet p)))
                    (gen_state p a)).

(** [for t in self.progress_bar(self.scheduler.timesteps)]: one network
    prediction, one scheduler step per timestep. *)
Fixpoint denoise (ts : list Z) (cls : option nat) (img : nat) (fr : frame) (g : Z)
    : nat * frame * Z * list event :=
  match ts with
  | [] => (img, fr, g, [])
  | t :: ts' =>
      let x := read fr img in
      let labels := option_map (read fr) cls in
      let (mo, fr1) := alloc (unet_forward x t labels) fr in
      let out := scheduler_step (read fr1 mo) t x g in
      let fr2 := write img (so_sample_after out) fr1 in
      let (img', fr3) :=
        match so_prev out with
        | PrevFresh y => alloc y fr2
        | PrevSameObject => (img, fr2)
        end in
      let '(img'', fr4, g', evs) := denoise ts' cls img' fr3 (so_gen out) in
      (img'', fr4, g', EvUnet t x labels :: EvStep t :: evs)
  end.

(** The post-processing [if output_type == "pil": ... elif output_type ==
    "tensor": ...]; [None] when torch or PIL raises. *)
Definition postprocess (ot : option string) (x : tensor) : option images :=
  if is_output_type ot "pil" then
    let y := clamp 0 1 (tmap (fun v => sc_add (sc_mul v (1#2)) (1#2)) x) in
    match permute_0231 (to_device y) with
    | Some z => option_map ImgPIL (numpy_to_pil z)
    | None => None
    end
  else if is_output_type ot "tensor" then Some (ImgTensor (clamp (-1) 1 x))
  else Some (ImgTensor x).

Definition set_pipeline_timesteps (p : pipeline) (ts : list Z) : pipeline :=
  mkPipeline (p_unet p) (p_device p) ts (p_global_rng p).

(** Writes the generator state back: into torch's global generator when the
    caller passed none. *)
Definition finish_rng (p : pipeline) (a : call_args) (g : Z) : pipeline * option Z :=
  match generator a with
  | Some _ => (p, Some g)
  | None => (mkPipeline (p_unet p) (p_device p) (p_timesteps p) g, None)
  end.

(** [DDPMPipeline_Costum.__call__] up to the end of the loop. *)
Definition DDPMPipeline_Costum_sample (p : pipeline) (a : call_args) : loop_state :=
  let shape := image_shape (batch_size a) (unet_config_of (p_unet p)) in
  let (x0, g1) := sample_noise p shape (gen_state p a) in
  let (img, fr0) := alloc x0 empty_frame in
  let (noise_init, fr1) := alloc (read fr0 img) fr0 in
  let p1 := set_pipeline_timesteps p (set_timesteps (num_inference_steps a)) in
  let '(img', fr2, g2, evs) := denoise (p_timesteps p1) None img fr1 g1 in
  mkLoop p1 fr2 img' noise_init None g2
         (EvSetTimesteps (num_inference_steps a) :: evs).

(** The [if not return_dict: ...] block of [DDPMPipeline_Costum.__call__]. *)
Definition package_Costum (a : call_args) (noise_init : tensor) (imgs : images) : result :=
  if negb (return_dict a) then
    if is_output_type (output_type a) "tensor" then Tuple2 imgs noise_init else Tuple1 imgs
  else ImagePipelineOutput imgs.

(** [DDPMPipeline_Costum.__call__]. *)
Definition DDPMPipeline_Costum_call (p : pipeline) (a : call_args) : call_ret :=
  let s := DDPMPipeline_Costum_sample p a in
  let pg := finish_rng (ls_pipeline s) a (ls_gen s) in
  mkRet (fst pg) (snd pg) (ls_trace s)
    (option_map (package_Costum a (read (ls_frame s) (ls_noise_init s)))
       (postprocess (output_type a) (read (ls_frame s) (ls_image s)))).

(** [DDPMPipeline_Costum_ClsEmb.__call__] up to the end of the loop. A
    caller-supplied [class_sample] is an object that exists before the call. *)
Definition DDPMPipeline_Costum_ClsEmb_sample (p : pipeline) (a : call_args)
    (class_sample : option tensor) : loop_state :=
  let (cls0, frc) :=
    match class_sample with
    | Some c => let (l, fr) := alloc c empty_frame in (Some l, fr)
    | None => (None, empty_frame)
    end in
  let shape := image_shape (batch_size a) (unet_config_of (p_unet p)) in
  let (x0, g1) := sample_noise p shape (gen_state p a) in
  let (img, fr0) := alloc x0 frc in
  let (noise_init, fr1) := alloc (read fr0 img) fr0 in
  let p1 := set_pipeline_timesteps p (set_timesteps (num_inference_steps a)) in
  let '(cls, fr2, g2, ev0) :=
    match cls0 with
    | Some l => (l, fr1, g1, [])
    | None =>
        let (lab, g') := randint 0 10 [batch_size a] g1 in
        let (l, fr) := alloc (to_device lab) fr1 in
        (l, fr, g', [EvRandint lab])
    end in
  let '(img', fr3, g3, evs) := denoise (p_timesteps p1) (Some cls) img fr2 g2 in
  mkLoop p1 fr3 img' noise_init (Some cls) g3
         (EvSetTimesteps (num_inference_steps a) :: ev0 ++ evs).

(** The [if not return_dict: ...] block of [DDPMPipeline_Costum_ClsEmb.__call__]. *)
Definition package_ClsEmb (a : call_args) (noise_init class_sample : tensor) (imgs : images)
    : result :=
  if negb (return_dict a) then
    if is_output_type (output_type a) "tensor" then Tuple3 imgs noise_init class_sample
    else Tuple1 imgs
  else ImagePipelineOutput imgs.

(** [DDPMPipeline_Costum_ClsEmb.__call__]. *)
Definition DDPMPipeline_Costum_ClsEmb_call (p : pipeline) (a : call_args)
    (class_sample : option tensor) : call_ret :=
  let s := DDPMPipeline_Costum_ClsEmb_sample p a class_sample in
  let pg := finish_rng (ls_pipeline s) a (ls_gen s) in
  mkRet (fst pg) (snd pg) (ls_trace s)
    (option_map (package_ClsEmb a (read (ls_frame s) (ls_noise_init s))
                   (read (ls_frame s) (default 0%nat (ls_class_sample s))))
       (postprocess (output_type a) (read (ls_frame s) (ls_image s)))).

Definition noise_gen (p : pipeline) (a : call_args) : Z :=
  snd (sample_noise p (image_shape (batch_size a) (unet_config_of (p_unet p)))
                    (gen_state p a)).

(** The labels [torch.randint(0, 10, (batch_size,), generator=generator)]
    draws right after the initial noise. *)
Definition drawn_labels (p : pipeline) (a : call_args) : tensor * Z :=
  randint 0 10 [batch_size a] (noise_gen p a).

(** The labels the conditional loop uses: the caller's, or the drawn ones. *)
Definition labels_used (p : pipeline) (a : call_args) (class_sample : option tensor) : tensor :=
  match class_sample with Some c => c | None => fst (drawn_labels p a) end.

End Pipelines.

(** ** Reading traces and results *)

Definition is_unet (e : event) : bool := match e with EvUnet _ _ _ => true | _ => false end.
Definition is_step (e : event) : bool := match e with EvStep _ => true | _ => false end.
Definition is_randint (e : event) : bool := match e with EvRandint _ => true | _ => false end.

(** Labels handed to the network by an event, if it is a network call. *)
Definition unet_labels (e : event) : option (option tensor) :=
  match e with EvUnet _ _ c => Some c | _ => None end.

Definition result_images (r : result) : images :=
  match r with
  | ImagePipelineOutput i | Tuple1 i | Tuple2 i _ | Tuple3 i _ _ => i
  end.

Definition result_noise (r : result) : option tensor :=
  match r with Tuple2 _ n | Tuple3 _ n _ => Some n | _ => None end.

Definition result_labels (r : result) : option tensor :=
  match r with Tuple3 _ _ c => Some c | _ => None end.

(** The timesteps of a run of loop bodies: each body is a network call at
    [t] immediately followed by a scheduler step at the same [t]; [None] if
    the events do not have that form. *)
Fixpoint loop_timesteps (evs : list event) : option (list Z) :=
  match evs with
  | [] => Some []
  | EvUnet t _ _ :: EvStep t' :: rest =>
      if Z.eqb t t' then option_map (cons t) (loop_timesteps rest) else None
  | _ => None
  end.

(** The value of [scheduler.step(...).prev_sample]: the new tensor, or the
    [sample] object after its in-place update. *)
Definition prev_value (out : step_output) : tensor :=
  match so_prev out with PrevFresh y => y | PrevSameObject => so_sample_after out end.

(** First dimension of the image output: a tensor's first axis, or the
    number of PIL images in the list. *)
Definition batch_dim (i : images) : option nat :=
  match i with
  | ImgTensor x => head (t_shape x)
  | ImgPIL l => Some (length l)
  end.

(** ** Concrete collaborators, to run the pipelines *)

Definition ex_randn (n : nat) (g : Z) : list scalar * Z :=
  (map (fun i => Fin (inject_Z ((g + Z.of_nat i) mod 7 - 3) * (1#2))%Q) (seq 0 n),
   g + Z.of_nat n)%Z.

Definition ex_random_bits (g : Z) : Z * Z := ((g * 37 + 11) mod 1000, g + 1)%Z.

Definition ex_unet (x : tensor) (t : Z) (c : option tensor) : tensor :=
  tmap (fun v => sc_add (sc_mul v (1#2)) (inject_Z t * (1#100))%Q) x.

(** A network whose prediction is NaN everywhere (as after an overflow). *)
Definition ex_unet_nan (x : tensor) (t : Z) (c : option tensor) : tensor :=
  tmap (fun _ => NaN) x.

(** A step that also scales its [sample] argument in place. *)
Definition ex_step (mo : tensor) (t : Z) (x : tensor) (g : Z) : step_output :=
  mkStepOutput
    (PrevFresh (mkTensor (t_dtype x) (t_shape x)
                  (map (fun '(u, v) =>
                          match u, v with Fin a, Fin b => Fin (3 * a - b)%Q | _, _ => NaN end)
                       (combine (t_data x) (t_data mo)))))
    (tmap (fun v => sc_mul v 2) x) (g + 1).

Definition ex_set_timesteps (n : nat) : list Z := rev (map Z.of_nat (seq 0 n)).

Definition ex_pipeline : pipeline :=
  mkPipeline (UnetModule (mkConfig 1 (SizeInt 2))) CPU [] 5.

Definition ex_labels : tensor := mkTensor Int64 [2%nat] [Fin (inject_Z 3); Fin (inject_Z 7)].

Definition ex_args (ot : option string) (rd : bool) : call_args :=
  mkArgs 2 (Some 42%Z) 3 ot rd.



(** ** Lemmas on the denoising loop *)

Section LoopFacts.

Variable unet_forward : tensor -> Z -> option tensor -> tensor.
Variable scheduler_step : tensor -> Z -> tensor -> Z -> step_output.

Local Abbreviation loop := (denoise unet_forward scheduler_step).

Lemma alloc_spec (v : tensor) (fr : frame) (l : nat) (fr' : frame) :
  alloc v fr = (l, fr') ->
  l = fr_next fr /\ fr_next fr' = S (fr_next fr) /\ read fr' l = v /\
  (forall n, n <> l -> read fr' n = read fr n).
Proof.
  intros H. injection H as <- <-. unfold read; simpl.
  repeat split; [by rewrite lookup_insert_eq|].
  intros n Hn. by rewrite lookup_insert_ne by congruence.
Qed.

Lemma read_write_ne (l n : nat) (v : tensor) (fr : frame) :
  n <> l -> read (write l v fr) n = read fr n.
Proof. intros H. unfold read; simpl. by rewrite lookup_insert_ne by congruence. Qed.

Lemma read_write_eq (l : nat) (v : tensor) (fr : frame) :
  read (write l v fr) l = v.
Proof. unfold read; simpl. by rewrite lookup_insert_eq. Qed.

Lemma next_write (l : nat) (v : tensor) (fr : frame) : fr_next (write l v fr) = fr_next fr.
Proof. reflexivity. Qed.

(** The loop writes only the current image object and new objects: any older
    object that is not the image the loop starts from keeps its contents, at
    every iteration; and the network sees the contents of the labels object
    at every iteration. *)
Lemma denoise_frame (ts : list Z) :
  forall cls img fr g img' fr' g' evs n,
    loop ts cls img fr g = (img', fr', g', evs) ->
    (n < fr_next fr)%nat -> (img < fr_next fr)%nat -> n <> img ->
    read fr' n = read fr n /\ (fr_next fr <= fr_next fr')%nat /\
    (cls = Some n ->
     Forall (fun e => unet_labels e = None \/ unet_labels e = Some (Some (read fr n))) evs).
Proof.
  induction ts as [|t ts IH]; intros cls img fr g img' fr' g' evs n Hrun Hn Himg Hne;
    cbn [denoise] in Hrun.
  - injection Hrun as <- <- <- <-. repeat split; [lia|constructor].
  - destruct (alloc _ fr) as [mo fr1] eqn:E1.
    apply alloc_spec in E1 as (-> & N1 & _ & R1).
    set (out := scheduler_step _ t _ g) in Hrun.
    set (fr2 := write img (so_sample_after out) fr1) in *.
    assert (E2 : read fr2 n = read fr n).
    { unfold fr2. rewrite read_write_ne by done. apply R1. lia. }
    assert (N2 : fr_next fr2 = S (fr_next fr)) by (unfold fr2; rewrite next_write; done).
    destruct (match so_prev out with PrevFresh y => alloc y fr2 | PrevSameObject => (img, fr2) end)
      as [img1 fr3] eqn:E3.
    assert (H3 : read fr3 n = read fr n /\ (fr_next fr2 <= fr_next fr3)%nat /\
                 (n < fr_next fr3)%nat /\ (img1 < fr_next fr3)%nat /\ n <> img1).
    { destruct (so_prev out) as [y|].
      - apply alloc_spec in E3 as (-> & N3 & _ & R3).
        rewrite R3 by lia. repeat split; try lia. exact E2.
      - injection E3 as <- <-. repeat split; try lia. exact E2. }
    destruct (loop ts cls img1 fr3 (so_gen out)) as [[[i4 fr4] g4] evs4] eqn:E4.
    injection Hrun as <- <- <- <-.
    destruct H3 as (R3 & L3 & Hn3 & Hi3 & Hne3).
    destruct (IH _ _ _ _ _ _ _ _ n E4 Hn3 Hi3 Hne3) as (R4 & L4 & F4).
    split; [congruence|split; [lia|]].
    intros ->. constructor; [right; reflexivity|].
    constructor; [left; reflexivity|].
    rewrite <- R3. apply F4. reflexivity.
Qed.

(** One network call and one scheduler step per timestep, nothing else. *)
Lemma denoise_trace (ts : list Z) :
  forall cls img fr g img' fr' g' evs,
    loop ts cls img fr g = (img', fr', g', evs) ->
    length (filter is_unet evs) = length ts /\ length (filter is_step evs) = length ts /\
    filter is_randint evs = [].
Proof.
  induction ts as [|t ts IH]; intros cls img fr g img' fr' g' evs Hrun;
    cbn [denoise] in Hrun.
  - injection Hrun as <- <- <- <-. auto.
  - destruct (alloc _ fr) as [mo fr1].
    destruct (match so_prev _ with PrevFresh y => alloc y _ | PrevSameObject => _ end)
      as [img1 fr3].
    destruct (loop ts cls img1 fr3 _) as [[[i4 fr4] g4] evs4] eqn:E4.
    injection Hrun as <- <- <- <-.
    destruct (IH _ _ _ _ _ _ _ _ E4) as (A & B & C). simpl. auto.
Qed.

(** When the scheduler keeps the shape of the sample, the image the loop ends
    with has the shape of the image it starts from. *)
Lemma denoise_shape (ts : list Z) :
  (forall mo t x g, t_shape (so_sample_after (scheduler_step mo t x g)) = t_shape x) ->
  (forall mo t x g y, so_prev (scheduler_step mo t x g) = PrevFresh y -> t_shape y = t_shape x) ->
  forall cls img fr g img' fr' g' evs,
    loop ts cls img fr g = (img', fr', g', evs) ->
    t_shape (read fr' img') = t_shape (read fr img).
Proof.
  intros Hs Hp. induction ts as [|t ts IH]; intros cls img fr g img' fr' g' evs Hrun;
    cbn [denoise] in Hrun.
  - by injection Hrun as <- <- <- <-.
  - destruct (alloc _ fr) as [mo fr1] eqn:E1.
    set (out := scheduler_step _ t _ g) in Hrun.
    destruct (so_prev out) as [y|] eqn:Ep.
    + destruct (alloc y _) as [img1 fr3] eqn:E3.
      destruct (loop ts cls img1 fr3 _) as [[[i4 fr4] g4] evs4] eqn:E4.
      injection Hrun as <- <- <- <-.
      rewrite (IH _ _ _ _ _ _ _ _ E4).
      apply alloc_spec in E3 as (_ & _ & -> & _). apply (Hp _ _ _ _ _ Ep).
    + destruct (loop ts cls img _ _) as [[[i4 fr4] g4] evs4] eqn:E4.
      injection Hrun as <- <- <- <-.
      rewrite (IH _ _ _ _ _ _ _ _ E4), read_write_eq. apply Hs.
Qed.

End LoopFacts.

(** ** The two calls up to the end of the loop *)

Section CallFacts.

Variable randn : nat -> Z -> list scalar * Z.
Variable random_bits : Z -> Z * Z.
Variable unet_forward : tensor -> Z -> option tensor -> tensor.
Variable scheduler_step : tensor -> Z -> tensor -> Z -> step_output.
Variable set_timesteps : nat -> list Z.

Lemma Costum_sample_spec (p : pipeline) (a : call_args) :
  let s := DDPMPipeline_Costum_sample randn unet_forward scheduler_step set_timesteps p a in
  exists fr1 evs,
    fr_next fr1 = 2%nat /\ read fr1 0 = initial_noise randn p a /\
    read fr1 1 = initial_noise randn p a /\ ls_noise_init s = 1%nat /\
    ls_pipeline s = set_pipeline_timesteps p (set_timesteps (num_inference_steps a)) /\
    denoise unet_forward scheduler_step (set_timesteps (num_inference_steps a)) None 0 fr1
            (noise_gen randn p a) = (ls_image s, ls_frame s, ls_gen s, evs) /\
    ls_trace s = EvSetTimesteps (num_inference_steps a) :: evs.
Proof.
  unfold DDPMPipeline_Costum_sample, initial_noise, noise_gen.
  destruct (sample_noise randn p _ _) as [x0 g1] eqn:E0. cbn -[denoise].
  destruct (denoise _ _ _ _ _ _ _) as [[[i fr] g] evs] eqn:E. simpl.
  eexists _, evs. repeat split; try eassumption; try reflexivity;
    unfold read; simpl; by simplify_map_eq.
Qed.

Lemma ClsEmb_sample_spec (p : pipeline) (a : call_args) (class_sample : option tensor) :
  let s := DDPMPipeline_Costum_ClsEmb_sample randn random_bits unet_forward scheduler_step
             set_timesteps p a class_sample in
  exists fr2 img cls g2 ev0 evs,
    fr_next fr2 = 3%nat /\ (img < 3)%nat /\ (ls_noise_init s < 3)%nat /\ (cls < 3)%nat /\
    img <> ls_noise_init s /\ img <> cls /\ cls <> ls_noise_init s /\
    read fr2 img = initial_noise randn p a /\
    read fr2 (ls_noise_init s) = initial_noise randn p a /\
    read fr2 cls = labels_used randn random_bits p a class_sample /\ ls_class_sample s = Some cls /\
    ls_pipeline s = set_pipeline_timesteps p (set_timesteps (num_inference_steps a)) /\
    denoise unet_forward scheduler_step (set_timesteps (num_inference_steps a)) (Some cls)
            img fr2 g2 = (ls_image s, ls_frame s, ls_gen s, evs) /\
    ls_trace s = EvSetTimesteps (num_inference_steps a) :: ev0 ++ evs /\
    ev0 = match class_sample with
          | Some _ => []
          | None => [EvRandint (fst (drawn_labels randn random_bits p a))]
          end.
Proof.
  unfold DDPMPipeline_Costum_ClsEmb_sample, initial_noise, labels_used, drawn_labels,
    noise_gen.
  destruct (sample_noise randn p _ _) as [x0 g1] eqn:E0. simpl fst; simpl snd.
  destruct class_sample as [c|].
  - cbn -[denoise].
    destruct (denoise _ _ _ _ _ _ _) as [[[i fr] g] evs] eqn:E. simpl.
    eexists _, 1%nat, 0%nat, _, [], evs. repeat split; try eassumption; try reflexivity; try lia;
      unfold read; simpl; by simplify_map_eq.
  - cbn -[denoise randint].
    destruct (randint random_bits 0 10 _ g1) as [lab g'] eqn:EL. cbn -[denoise].
    destruct (denoise _ _ _ _ _ _ _) as [[[i fr] g] evs] eqn:E. simpl.
    eexists _, 0%nat, 2%nat, _, _, evs. repeat split; try eassumption; try reflexivity; try lia;
      unfold read; simpl; by simplify_map_eq.
Qed.

End CallFacts.

(** ** Facts on the sampling of labels *)

Lemma randint_vals_spec (random_bits : Z -> Z * Z) (n : nat) :
  forall g, length (fst (randint_vals random_bits 0 10 n g)) = n /\
    Forall (fun v => exists z, v = Fin (inject_Z z) /\ (0 <= z < 10)%Z)
           (fst (randint_vals random_bits 0 10 n g)).
Proof.
  induction n as [|n IH]; intros g; simpl.
  - split; [reflexivity|constructor].
  - destruct (random_bits g) as [v g1].
    destruct (randint_vals random_bits 0 10 n g1) as [vs g2] eqn:E.
    specialize (IH g1). rewrite E in IH. destruct IH as [IHl IHf]. simpl in *.
    split; [lia|]. constructor; [|exact IHf].
    exists (v mod (10 - 0) + 0)%Z. split; [reflexivity|].
    pose proof (Z.mod_pos_bound v (10 - 0)). lia.
Qed.

(** ** Facts on post-processing *)

Lemma is_output_type_ne (ot : option string) (s : string) :
  ot <> Some s -> is_output_type ot s = false.
Proof.
  destruct ot as [s'|]; simpl; [|reflexivity].
  intros H. apply String.eqb_neq. congruence.
Qed.

Lemma postprocess_tensor (x : tensor) :
  postprocess (Some "tensor"%string) x = Some (ImgTensor (clamp (-1) 1 x)).
Proof. reflexivity. Qed.

Lemma postprocess_other (ot : option string) (x : tensor) :
  ot <> Some "pil"%string -> ot <> Some "tensor"%string ->
  postprocess ot x = Some (ImgTensor x).
Proof.
  intros Hp Ht. unfold postprocess.
  rewrite (is_output_type_ne _ _ Hp), (is_output_type_ne _ _ Ht). reflexivity.
Qed.

Lemma Forall2_map_r {A B} (P : A -> B -> Prop) (f : A -> B) (l : list A) :
  Forall (fun v => P v (f v)) l -> Forall2 P l (map f l).
Proof. induction 1; simpl; constructor; auto. Qed.

(** One element of [clamp(-1, 1)]: NaN stays NaN, every other element
    becomes a finite value in [[-1, 1]]. *)
Lemma clamp_elem_nan (v : scalar) :
  (v = NaN /\ sc_min (sc_max v (Fin (-1))) (Fin 1) = NaN) \/
  (v <> NaN /\ exists q, sc_min (sc_max v (Fin (-1))) (Fin 1) = Fin q /\
                         (-1 <= q)%Q /\ (q <= 1)%Q).
Proof.
  destruct v as [u| | |]; [right|right|right|left; split; reflexivity].
  - split; [discriminate|]. simpl. unfold qmin, qmax.
    destruct (Qle_bool u (-1)) eqn:E1.
    + eexists. split; [reflexivity|]. simpl. lra.
    + assert (H1 : ~ (u <= -1)%Q) by (intros H; apply Qle_bool_iff in H; congruence).
      apply Qnot_le_lt in H1.
      destruct (Qle_bool u 1) eqn:E2; eexists; (split; [reflexivity|]).
      * apply Qle_bool_iff in E2. lra.
      * lra.
  - split; [discriminate|]. exists 1%Q. split; [reflexivity|]. lra.
  - split; [discriminate|]. exists (-1)%Q. split; [reflexivity|]. lra.
Qed.

Lemma chunks_length (n k : nat) (l : list scalar) : length (chunks n k l) = k.
Proof. revert l; induction k as [|k IH]; intros l; simpl; [reflexivity|by rewrite IH]. Qed.

(** A 4-dimensional [(b, h, w, c)] array gives one PIL image per entry of
    its first axis, all of the same shape, or raises for all of them. *)
Lemma numpy_to_pil_4d (z : tensor) (b h w c : nat) :
  t_shape z = [b; h; w; c] ->
  numpy_to_pil z =
  mapM (fun d => option_map (fun sh => mkTensor UInt8 sh d)
          (if Nat.eqb c 1
           then pil_array_shape (Some ModeL) (filter (fun d => negb (Nat.eqb d 1)) [h; w; c])
           else pil_array_shape None [h; w; c]))
       (chunks (numel [h; w; c]) b (map to_uint8 (t_data z))).
Proof.
  intros Hs. unfold numpy_to_pil. rewrite Hs. cbv beta iota zeta. rewrite Hs. reflexivity.
Qed.

Lemma permute_0231_shape (x z : tensor) (b c h w : nat) :
  t_shape x = [b; c; h; w] -> permute_0231 x = Some z -> t_shape z = [b; h; w; c].
Proof. intros Hs. unfold permute_0231. rewrite Hs. intros E. by injection E as <-. Qed.



Lemma pil_pic_some (h w c : nat) (sh : list nat) :
  h <> 1%nat -> w <> 1%nat ->
  (if Nat.eqb c 1
   then pil_array_shape (Some ModeL) (filter (fun d => negb (Nat.eqb d 1)) [h; w; c])
   else pil_array_shape None [h; w; c]) = Some sh ->
  sh = (if Nat.eqb c 1 then [h; w] else [h; w; c]).
Proof.
  intros Hh Hw. destruct (Nat.eqb c 1) eqn:Ec.
  - apply Nat.eqb_eq in Ec. subst c. simpl.
    rewrite (proj2 (Nat.eqb_neq h 1) Hh), (proj2 (Nat.eqb_neq w 1) Hw).
    unfold pil_array_shape; simpl. congruence.
  - unfold pil_array_shape.
    destruct (Nat.eqb c 2), (Nat.eqb c 3), (Nat.eqb c 4); simpl; congruence.
Qed.


(** Post-processing keeps the first dimension: the tensor's first axis, or
    one PIL image per entry of it. *)
Lemma postprocess_batch_dim (ot : option string) (x : tensor) (i : images) :
  postprocess ot x = Some i -> batch_dim i = head (t_shape x).
Proof.
  unfold postprocess.
  destruct (is_output_type ot "pil").
  - destruct (permute_0231 _) as [z|] eqn:Ez; [|discriminate].
    unfold permute_0231, to_device, clamp, tmap in Ez; simpl in Ez.
    destruct (t_shape x) as [|b [|c [|h [|w [|d ds]]]]]; try discriminate.
    injection Ez as <-.
    erewrite (numpy_to_pil_4d _ b h w c); [|reflexivity].
    destruct (mapM _ _) as [imgs|] eqn:Em; [|discriminate].
    intros H; injection H as <-. simpl.
    apply length_mapM in Em. by rewrite <- Em, chunks_length.
  - destruct (is_output_type ot "tensor"); intros H; injection H as <-; reflexivity.
Qed.

Lemma initial_noise_shape (randn : nat -> Z -> list scalar * Z) (p : pipeline) (a : call_args) :
  t_shape (initial_noise randn p a)
  = image_shape (batch_size a) (unet_config_of (p_unet p)).
Proof.
  unfold initial_noise, sample_noise, randn_tensor.
  destruct (p_device p), (randn _ _); reflexivity.
Qed.

Lemma image_shape_head (b : nat) (c : unet_config) : head (image_shape b c) = Some b.
Proof. unfold image_shape. by destruct (sample_size c). Qed.

(** ** The claims *)

(** C2: for both pipelines, when [set_timesteps(n)] yields [n] timesteps, the
    loop body (one network prediction, one scheduler step) runs exactly
    [n = num_inference_steps] times. *)
Theorem denoise_loop_runs_num_inference_steps :
  forall randn random_bits unet_forward scheduler_step set_timesteps p a class_sample,
  length (set_timesteps (num_inference_steps a)) = num_inference_steps a ->
  (let tr := cr_trace (DDPMPipeline_Costum_call randn unet_forward scheduler_step
                         set_timesteps p a) in
   length (filter is_unet tr) = num_inference_steps a /\
   length (filter is_step tr) = num_inference_steps a) /\
  (let tr := cr_trace (DDPMPipeline_Costum_ClsEmb_call randn random_bits unet_forward
                         scheduler_step set_timesteps p a class_sample) in
   length (filter is_unet tr) = num_inference_steps a /\
   length (filter is_step tr) = num_inference_steps a).
Proof.
  intros randn random_bits unet_forward scheduler_step set_timesteps p a cs Hlen.
  split; cbn [cr_trace DDPMPipeline_Costum_call DDPMPipeline_Costum_ClsEmb_call].
  - destruct (Costum_sample_spec randn unet_forward scheduler_step set_timesteps p a)
      as (fr1 & evs & _ & _ & _ & _ & _ & Hrun & ->).
    destruct (denoise_trace _ _ _ _ _ _ _ _ _ _ _ Hrun) as (A & B & _).
    simpl. rewrite A, B, Hlen. auto.
  - destruct (ClsEmb_sample_spec randn random_bits unet_forward scheduler_step set_timesteps
                p a cs)
      as (fr2 & img & cls & g2 & ev0 & evs & _ & _ & _ & _ & _ & _ & _ & _ & _ & _ & _ & _
          & Hrun & -> & ->).
    destruct (denoise_trace _ _ _ _ _ _ _ _ _ _ _ Hrun) as (A & B & _).
    destruct cs; simpl; rewrite A, B, Hlen; auto.
Qed.

(** C5: for both pipelines, the clone [noise_init] of the initial noise is
    never modified: after the loop it still holds the initial noise, and
    with [return_dict=False] and [output_type="tensor"] the tuple returns it
    next to the image. *)
Theorem noise_init_snapshot_unmodified :
  forall randn random_bits unet_forward scheduler_step set_timesteps p a class_sample,
  (let s := DDPMPipeline_Costum_sample randn unet_forward scheduler_step set_timesteps p a in
   read (ls_frame s) (ls_noise_init s) = initial_noise randn p a) /\
  (let s := DDPMPipeline_Costum_ClsEmb_sample randn random_bits unet_forward scheduler_step
              set_timesteps p a class_sample in
   read (ls_frame s) (ls_noise_init s) = initial_noise randn p a) /\
  (return_dict a = false -> output_type a = Some "tensor"%string ->
   option_map result_noise
     (cr_output (DDPMPipeline_Costum_call randn unet_forward scheduler_step set_timesteps p a))
   = Some (Some (initial_noise randn p a)) /\
   option_map result_noise
     (cr_output (DDPMPipeline_Costum_ClsEmb_call randn random_bits unet_forward scheduler_step
                   set_timesteps p a class_sample))
   = Some (Some (initial_noise randn p a))).
Proof.
  intros randn random_bits unet_forward scheduler_step set_timesteps p a cs.
  assert (U : read (ls_frame (DDPMPipeline_Costum_sample randn unet_forward scheduler_step
                                set_timesteps p a))
                (ls_noise_init (DDPMPipeline_Costum_sample randn unet_forward scheduler_step
                                  set_timesteps p a)) = initial_noise randn p a).
  { destruct (Costum_sample_spec randn unet_forward scheduler_step set_timesteps p a)
      as (fr1 & evs & N1 & _ & R1 & -> & _ & Hrun & _).
    destruct (denoise_frame _ _ _ _ _ _ _ _ _ _ _ 1%nat Hrun) as (R & _); try lia.
    congruence. }
  assert (C : read (ls_frame (DDPMPipeline_Costum_ClsEmb_sample randn random_bits unet_forward
                                scheduler_step set_timesteps p a cs))
                (ls_noise_init (DDPMPipeline_Costum_ClsEmb_sample randn random_bits
                                  unet_forward scheduler_step set_timesteps p a cs))
              = initial_noise randn p a).
  { destruct (ClsEmb_sample_spec randn random_bits unet_forward scheduler_step set_timesteps
                p a cs)
      as (fr2 & img & cls & g2 & ev0 & evs & N2 & Hi & Hn & _ & Hne & _ & _ & _ & Rn & _ & _
          & _ & Hrun & _ & _).
    destruct (denoise_frame _ _ _ _ _ _ _ _ _ _ _
                (ls_noise_init (DDPMPipeline_Costum_ClsEmb_sample randn random_bits
                   unet_forward scheduler_step set_timesteps p a cs)) Hrun)
      as (R & _); try lia; auto.
    congruence. }
  split; [exact U|split; [exact C|]].
  intros Hrd Hot.
  unfold DDPMPipeline_Costum_call, DDPMPipeline_Costum_ClsEmb_call, postprocess,
    package_Costum, package_ClsEmb; cbn [cr_output].
  rewrite Hrd, Hot. simpl. rewrite U, C. split; reflexivity.
Qed.

(** C7: in the conditional pipeline without caller labels, the labels are
    drawn exactly once, before the loop (right after [set_timesteps]), and
    every network call of the loop receives that same label tensor. *)
Theorem sampled_labels_fixed_during_loop :
  forall randn random_bits unet_forward scheduler_step set_timesteps p a,
  exists lab evs,
    cr_trace (DDPMPipeline_Costum_ClsEmb_call randn random_bits unet_forward scheduler_step
                set_timesteps p a None)
    = EvSetTimesteps (num_inference_steps a) :: EvRandint lab :: evs /\
    filter is_randint evs = [] /\
    Forall (fun e => unet_labels e = None \/ unet_labels e = Some (Some lab)) evs.
Proof.
  intros randn random_bits unet_forward scheduler_step set_timesteps p a.
  cbn [cr_trace DDPMPipeline_Costum_ClsEmb_call].
  destruct (ClsEmb_sample_spec randn random_bits unet_forward scheduler_step set_timesteps
              p a None)
    as (fr2 & img & cls & g2 & ev0 & evs & N2 & Hi & Hn & Hc & Hne & Hic & Hcn & _ & _ & Rc
        & _ & _ & Hrun & -> & ->).
  exists (fst (drawn_labels randn random_bits p a)), evs.
  split; [reflexivity|].
  destruct (denoise_trace _ _ _ _ _ _ _ _ _ _ _ Hrun) as (_ & _ & Hr).
  split; [exact Hr|].
  destruct (denoise_frame _ _ _ _ _ _ _ _ _ _ _ cls Hrun) as (_ & _ & F); try lia; auto.
  rewrite Rc in F. apply F. reflexivity.
Qed.

(** C10: in the conditional pipeline without caller labels, the drawn label
    tensor has shape [(batch_size,)], dtype int64 and integer elements in
    [[0, 10)]; the bound 10 is a constant of the code, not an argument. *)
Theorem sampled_labels_shape_dtype_range :
  forall randn random_bits unet_forward scheduler_step set_timesteps p a,
  exists lab evs,
    cr_trace (DDPMPipeline_Costum_ClsEmb_call randn random_bits unet_forward scheduler_step
                set_timesteps p a None)
    = EvSetTimesteps (num_inference_steps a) :: EvRandint lab :: evs /\
    t_shape lab = [batch_size a] /\ t_dtype lab = Int64 /\
    length (t_data lab) = batch_size a /\
    Forall (fun v => exists z, v = Fin (inject_Z z) /\ (0 <= z < 10)%Z) (t_data lab).
Proof.
  intros randn random_bits unet_forward scheduler_step set_timesteps p a.
  cbn [cr_trace DDPMPipeline_Costum_ClsEmb_call].
  destruct (ClsEmb_sample_spec randn random_bits unet_forward scheduler_step set_timesteps
              p a None)
    as (fr2 & img & cls & g2 & ev0 & evs & _ & _ & _ & _ & _ & _ & _ & _ & _ & _
        & _ & _ & _ & -> & ->).
  exists (fst (drawn_labels randn random_bits p a)), evs.
  split; [reflexivity|].
  unfold drawn_labels, randint.
  pose proof (randint_vals_spec random_bits (numel [batch_size a]) (noise_gen randn p a))
    as [L F].
  destruct (randint_vals random_bits 0 10 _ _) as [vs g'] eqn:E. simpl in *.
  repeat split; auto. lia.
Qed.

(** C1 (as amended): with [return_dict=False] and caller labels [c], the
    conditional pipeline returns [c] unchanged as the third element of the
    tuple when [output_type="tensor"]; for any other [output_type] the tuple
    is [(image,)] and carries no labels. *)
Theorem class_labels_returned_in_tensor_tuple :
  forall randn random_bits unet_forward scheduler_step set_timesteps p a c,
  return_dict a = false ->
  (output_type a = Some "tensor"%string ->
   option_map result_labels
     (cr_output (DDPMPipeline_Costum_ClsEmb_call randn random_bits unet_forward scheduler_step
                   set_timesteps p a (Some c)))
   = Some (Some c)) /\
  (output_type a <> Some "tensor"%string ->
   forall r, cr_output (DDPMPipeline_Costum_ClsEmb_call randn random_bits unet_forward
                          scheduler_step set_timesteps p a (Some c)) = Some r ->
   exists i, r = Tuple1 i).
Proof.
  intros randn random_bits unet_forward scheduler_step set_timesteps p a c Hrd.
  unfold DDPMPipeline_Costum_ClsEmb_call, package_ClsEmb; cbn [cr_output].
  rewrite Hrd. split.
  - intros Hot. rewrite Hot, postprocess_tensor. simpl.
    destruct (ClsEmb_sample_spec randn random_bits unet_forward scheduler_step set_timesteps
                p a (Some c))
      as (fr2 & img & cls & g2 & ev0 & evs & N2 & Hi & Hn & Hc & Hne & Hic & Hcn & _ & _ & Rc
          & -> & _ & Hrun & _ & _).
    destruct (denoise_frame _ _ _ _ _ _ _ _ _ _ _ cls Hrun) as (R & _); try lia; auto.
    simpl. rewrite R, Rc. reflexivity.
  - intros Hot r Hr. rewrite (is_output_type_ne _ _ Hot) in Hr.
    destruct (postprocess _ _) as [i|]; simpl in Hr; [|discriminate].
    injection Hr as <-. eauto.
Qed.

(** C3 (as amended): for both pipelines, with [output_type="tensor"] the
    call returns (as a structured result or as a tuple) an image tensor with
    one element per element of the image the loop ends with: NaN where that
    image has NaN ([clamp(-1, 1)] passes NaN through), and a finite value in
    [[-1, 1]] everywhere else; so all elements lie in [[-1, 1]] when the
    final image has no NaN. *)
Theorem tensor_output_in_unit_interval_or_nan :
  forall randn random_bits unet_forward scheduler_step set_timesteps p a class_sample,
  output_type a = Some "tensor"%string ->
  let clamped (x y : tensor) :=
    Forall2 (fun v w => (v = NaN /\ w = NaN) \/
                        (v <> NaN /\ exists q, w = Fin q /\ (-1 <= q)%Q /\ (q <= 1)%Q))
            (t_data x) (t_data y) in
  (let s := DDPMPipeline_Costum_sample randn unet_forward scheduler_step set_timesteps p a in
   exists r y,
     cr_output (DDPMPipeline_Costum_call randn unet_forward scheduler_step set_timesteps p a)
     = Some r /\ result_images r = ImgTensor y /\ clamped (read (ls_frame s) (ls_image s)) y) /\
  (let s := DDPMPipeline_Costum_ClsEmb_sample randn random_bits unet_forward scheduler_step
              set_timesteps p a class_sample in
   exists r y,
     cr_output (DDPMPipeline_Costum_ClsEmb_call randn random_bits unet_forward scheduler_step
                  set_timesteps p a class_sample)
     = Some r /\ result_images r = ImgTensor y /\ clamped (read (ls_frame s) (ls_image s)) y).
Proof.
  intros randn random_bits unet_forward scheduler_step set_timesteps p a cs Hot clamped.
  assert (Hc : forall x, clamped x (clamp (-1) 1 x)).
  { intros x. unfold clamped, clamp, tmap; simpl.
    apply Forall2_map_r. apply Forall_forall. intros v _. apply clamp_elem_nan. }
  unfold DDPMPipeline_Costum_call, DDPMPipeline_Costum_ClsEmb_call; cbn [cr_output].
  unfold package_Costum, package_ClsEmb. rewrite Hot, !postprocess_tensor.
  destruct (return_dict a); simpl;
    split; eexists; eexists; (split; [reflexivity|split; [reflexivity|apply Hc]]).
Qed.

(** C6: for both pipelines, an [output_type] other than "pil" and "tensor"
    raises nothing in post-processing and returns the image the loop ended
    with, neither rescaled nor clamped. *)
Theorem other_output_type_returns_raw_image :
  forall randn random_bits unet_forward scheduler_step set_timesteps p a class_sample,
  output_type a <> Some "pil"%string -> output_type a <> Some "tensor"%string ->
  (let s := DDPMPipeline_Costum_sample randn unet_forward scheduler_step set_timesteps p a in
   let x := read (ls_frame s) (ls_image s) in
   cr_output (DDPMPipeline_Costum_call randn unet_forward scheduler_step set_timesteps p a)
   = Some (if return_dict a then ImagePipelineOutput (ImgTensor x) else Tuple1 (ImgTensor x))) /\
  (let s := DDPMPipeline_Costum_ClsEmb_sample randn random_bits unet_forward scheduler_step
              set_timesteps p a class_sample in
   let x := read (ls_frame s) (ls_image s) in
   cr_output (DDPMPipeline_Costum_ClsEmb_call randn random_bits unet_forward scheduler_step
                set_timesteps p a class_sample)
   = Some (if return_dict a then ImagePipelineOutput (ImgTensor x) else Tuple1 (ImgTensor x))).
Proof.
  intros randn random_bits unet_forward scheduler_step set_timesteps p a cs Hp Ht.
  unfold DDPMPipeline_Costum_call, DDPMPipeline_Costum_ClsEmb_call,
    package_Costum, package_ClsEmb; cbn [cr_output].
  rewrite !(postprocess_other _ _ Hp Ht), (is_output_type_ne _ _ Ht). simpl.
  by destruct (return_dict a).
Qed.

(** C8: for both pipelines, when the scheduler step keeps the shape of the
    sample, every returned image output has first dimension [batch_size]. *)
Theorem output_batch_dim_is_batch_size :
  forall randn random_bits unet_forward scheduler_step set_timesteps p a class_sample,
  (forall mo t x g, t_shape (so_sample_after (scheduler_step mo t x g)) = t_shape x) ->
  (forall mo t x g y, so_prev (scheduler_step mo t x g) = PrevFresh y -> t_shape y = t_shape x) ->
  (forall r,
     cr_output (DDPMPipeline_Costum_call randn unet_forward scheduler_step set_timesteps p a)
     = Some r -> batch_dim (result_images r) = Some (batch_size a)) /\
  (forall r,
     cr_output (DDPMPipeline_Costum_ClsEmb_call randn random_bits unet_forward scheduler_step
                  set_timesteps p a class_sample)
     = Some r -> batch_dim (result_images r) = Some (batch_size a)).
Proof.
  intros randn random_bits unet_forward scheduler_step set_timesteps p a cs Hs Hp.
  unfold DDPMPipeline_Costum_call, DDPMPipeline_Costum_ClsEmb_call; cbn [cr_output].
  split; intros r Hr.
  - destruct (Costum_sample_spec randn unet_forward scheduler_step set_timesteps p a)
      as (fr1 & evs & _ & R0 & _ & _ & _ & Hrun & _).
    pose proof (denoise_shape _ _ _ Hs Hp _ _ _ _ _ _ _ _ Hrun) as Sh.
    destruct (postprocess _ _) as [i|] eqn:Ep; simpl in Hr; [|discriminate].
    injection Hr as <-. apply postprocess_batch_dim in Ep.
    assert (result_images (package_Costum a (read (ls_frame (DDPMPipeline_Costum_sample
              randn unet_forward scheduler_step set_timesteps p a)) (ls_noise_init
              (DDPMPipeline_Costum_sample randn unet_forward scheduler_step set_timesteps p a)))
              i) = i) as -> by (unfold package_Costum; by destruct (return_dict a),
                                  (is_output_type _ _)).
    rewrite Ep, Sh, R0, initial_noise_shape. apply image_shape_head.
  - destruct (ClsEmb_sample_spec randn random_bits unet_forward scheduler_step set_timesteps
                p a cs)
      as (fr2 & img & cls & g2 & ev0 & evs & _ & _ & _ & _ & _ & _ & _ & R0 & _ & _ & _ & _
          & Hrun & _ & _).
    pose proof (denoise_shape _ _ _ Hs Hp _ _ _ _ _ _ _ _ Hrun) as Sh.
    destruct (postprocess _ _) as [i|] eqn:Ep; simpl in Hr; [|discriminate].
    injection Hr as <-. apply postprocess_batch_dim in Ep.
    unfold package_ClsEmb.
    destruct (return_dict a), (is_output_type _ _); simpl;
      rewrite Ep, Sh, R0, initial_noise_shape; apply image_shape_head.
Qed.

(** C9: for both pipelines, omitting [num_inference_steps] is the same call
    as passing [num_inference_steps=1000]; the scheduler is set to 1000
    steps. *)
Theorem omitted_num_inference_steps_is_1000 :
  forall randn random_bits unet_forward scheduler_step set_timesteps p k class_sample,
  DDPMPipeline_Costum_call randn unet_forward scheduler_step set_timesteps p
    (resolve (with_num_inference_steps k None))
  = DDPMPipeline_Costum_call randn unet_forward scheduler_step set_timesteps p
      (resolve (with_num_inference_steps k (Some 1000%nat))) /\
  DDPMPipeline_Costum_ClsEmb_call randn random_bits unet_forward scheduler_step set_timesteps p
    (resolve (with_num_inference_steps k None)) class_sample
  = DDPMPipeline_Costum_ClsEmb_call randn random_bits unet_forward scheduler_step
      set_timesteps p (resolve (with_num_inference_steps k (Some 1000%nat))) class_sample /\
  head (cr_trace (DDPMPipeline_Costum_call randn unet_forward scheduler_step set_timesteps p
                    (resolve (with_num_inference_steps k None))))
  = Some (EvSetTimesteps 1000) /\
  head (cr_trace (DDPMPipeline_Costum_ClsEmb_call randn random_bits unet_forward
                    scheduler_step set_timesteps p
                    (resolve (with_num_inference_steps k None)) class_sample))
  = Some (EvSetTimesteps 1000).
Proof.
  intros randn random_bits unet_forward scheduler_step set_timesteps p k cs.
  split; [reflexivity|split; [reflexivity|]].
  cbn [cr_trace DDPMPipeline_Costum_call DDPMPipeline_Costum_ClsEmb_call].
  destruct (Costum_sample_spec randn unet_forward scheduler_step set_timesteps p
              (resolve (with_num_inference_steps k None)))
    as (fr1 & evs & _ & _ & _ & _ & _ & _ & ->).
  destruct (ClsEmb_sample_spec randn random_bits unet_forward scheduler_step set_timesteps
              p (resolve (with_num_inference_steps k None)) cs)
    as (fr2 & img & cls & g2 & ev0 & evs' & _ & _ & _ & _ & _ & _ & _ & _ & _ & _ & _ & _
        & _ & -> & _).
  split; reflexivity.
Qed.

(** C4: for both pipelines, two calls with the same arguments and a
    generator in the same state (e.g. freshly seeded with the same seed)
    give identical outputs, initial noise, traces (hence sampled labels and
    every network input) and final generator states, whatever the scheduler
    attribute and torch's global generator were left in by earlier calls. *)
Theorem seeded_calls_reproducible :
  forall randn random_bits unet_forward scheduler_step set_timesteps p1 p2 a seed class_sample,
  p_unet p1 = p_unet p2 -> p_device p1 = p_device p2 -> generator a = Some seed ->
  initial_noise randn p1 a = initial_noise randn p2 a /\
  (let r1 := DDPMPipeline_Costum_call randn unet_forward scheduler_step set_timesteps p1 a in
   let r2 := DDPMPipeline_Costum_call randn unet_forward scheduler_step set_timesteps p2 a in
   cr_output r1 = cr_output r2 /\ cr_trace r1 = cr_trace r2 /\
   cr_generator r1 = cr_generator r2) /\
  (let r1 := DDPMPipeline_Costum_ClsEmb_call randn random_bits unet_forward scheduler_step
               set_timesteps p1 a class_sample in
   let r2 := DDPMPipeline_Costum_ClsEmb_call randn random_bits unet_forward scheduler_step
               set_timesteps p2 a class_sample in
   cr_output r1 = cr_output r2 /\ cr_trace r1 = cr_trace r2 /\
   cr_generator r1 = cr_generator r2).
Proof.
  intros randn random_bits unet_forward scheduler_step set_timesteps
    [u1 d1 ts1 g1] [u2 d2 ts2 g2] [b gen n ot rd] seed cs Hu Hd Hg.
  simpl in Hu, Hd, Hg. subst u2 d2 gen.
  unfold DDPMPipeline_Costum_call, DDPMPipeline_Costum_ClsEmb_call,
    DDPMPipeline_Costum_sample, DDPMPipeline_Costum_ClsEmb_sample, initial_noise,
    gen_state, sample_noise, finish_rng; cbn -[denoise].
  repeat match goal with
         | |- context [match ?x with _ => _ end] => destruct x
         end;
  repeat split; reflexivity.
Qed.

(** ** Witnesses and counterexamples on concrete inputs *)

(** C1 as stated fails: with [output_type="pil"] (the default) and
    [return_dict=False], the conditional pipeline returns [(image,)], which
    does not contain the caller's labels. *)
Lemma class_labels_missing_from_pil_tuple :
  ~ (exists r,
       cr_output (DDPMPipeline_Costum_ClsEmb_call ex_randn ex_random_bits ex_unet ex_step
                    ex_set_timesteps ex_pipeline (ex_args (Some "pil"%string) false)
                    (Some ex_labels)) = Some r /\
       result_labels r = Some ex_labels).
Proof.
  intros [r [H1 H2]]. vm_compute in H1. injection H1 as <-. discriminate H2.
Qed.

(** C3 as stated fails: when the network predicts NaN, the scheduler step
    yields NaN, and [clamp(-1, 1)] returns NaN, which is not in [[-1, 1]]. *)
Lemma tensor_output_nan_escapes_interval :
  exists r x,
    cr_output (DDPMPipeline_Costum_call ex_randn ex_unet_nan ex_step ex_set_timesteps
                 ex_pipeline (ex_args (Some "tensor"%string) true)) = Some r /\
    result_images r = ImgTensor x /\
    ~ Forall (fun v => exists q, v = Fin q /\ (-1 <= q)%Q /\ (q <= 1)%Q) (t_data x).
Proof.
  destruct (cr_output (DDPMPipeline_Costum_call ex_randn ex_unet_nan ex_step ex_set_timesteps
                         ex_pipeline (ex_args (Some "tensor"%string) true)))
    as [r|] eqn:E; [|vm_compute in E; discriminate E].
  destruct (result_images r) as [x|imgs] eqn:Ei.
  - exists r, x. split; [reflexivity|split; [exact Ei|]].
    vm_compute in E. injection E as <-. vm_compute in Ei. injection Ei as <-.
    intros H. apply Forall_inv in H. destruct H as (q & Hq & _). discriminate Hq.
  - vm_compute in E. injection E as <-. discriminate Ei.
Qed.

Lemma class_labels_returned_in_tensor_tuple_witness :
  return_dict (ex_args (Some "tensor"%string) false) = false /\
  option_map result_labels
    (cr_output (DDPMPipeline_Costum_ClsEmb_call ex_randn ex_random_bits ex_unet ex_step
                  ex_set_timesteps ex_pipeline (ex_args (Some "tensor"%string) false)
                  (Some ex_labels)))
  = Some (Some ex_labels).
Proof.
  split; [reflexivity|].
  apply (proj1 (class_labels_returned_in_tensor_tuple ex_randn ex_random_bits ex_unet ex_step
                  ex_set_timesteps ex_pipeline (ex_args (Some "tensor"%string) false)
                  ex_labels eq_refl)).
  reflexivity.
Defined.

Lemma denoise_loop_runs_num_inference_steps_witness :
  length (ex_set_timesteps 3) = 3%nat /\
  length (filter is_step
            (cr_trace (DDPMPipeline_Costum_ClsEmb_call ex_randn ex_random_bits ex_unet ex_step
                         ex_set_timesteps ex_pipeline (ex_args None false) None)))
  = 3%nat.
Proof.
  split; [reflexivity|].
  apply (proj2 (proj2 (denoise_loop_runs_num_inference_steps ex_randn ex_random_bits ex_unet
                         ex_step ex_set_timesteps ex_pipeline (ex_args None false) None
                         eq_refl))).
Defined.


Lemma tensor_output_in_unit_interval_or_nan_witness :
  output_type (ex_args (Some "tensor"%string) true) = Some "tensor"%string /\
  exists r y,
    cr_output (DDPMPipeline_Costum_call ex_randn ex_unet_nan ex_step ex_set_timesteps
                 ex_pipeline (ex_args (Some "tensor"%string) true))
    = Some r /\ result_images r = ImgTensor y /\
    Forall (fun w => w = NaN) (t_data y) /\ length (t_data y) = 8%nat.
Proof.
  split; [reflexivity|].
  destruct (proj1 (tensor_output_in_unit_interval_or_nan ex_randn ex_random_bits ex_unet_nan
                     ex_step ex_set_timesteps ex_pipeline
                     (ex_args (Some "tensor"%string) true) None eq_refl))
    as (r & y & Hr & Hy & Hc).
  exists r, y. split; [exact Hr|split; [exact Hy|]].
  assert (Hx : Forall (fun v => v = NaN)
                 (t_data (read (ls_frame (DDPMPipeline_Costum_sample ex_randn ex_unet_nan ex_step
                                            ex_set_timesteps ex_pipeline
                                            (ex_args (Some "tensor"%string) true)))
                               (ls_image (DDPMPipeline_Costum_sample ex_randn ex_unet_nan
                                            ex_step ex_set_timesteps ex_pipeline
                                            (ex_args (Some "tensor"%string) true)))))).
  { vm_compute. repeat constructor. }
  split.
  - clear Hr Hy. induction Hc as [|v w l k Hvw Hl IH]; constructor.
    + apply Forall_inv in Hx. destruct Hvw as [[_ Hw] | [Hv _]]; [exact Hw|contradiction].
    + apply IH. exact (Forall_inv_tail Hx).
  - rewrite <- (Forall2_length Hc). vm_compute. reflexivity.
Defined.

Lemma seeded_calls_reproducible_witness :
  let p2 := cr_pipeline (DDPMPipeline_Costum_call ex_randn ex_unet ex_step ex_set_timesteps
                           ex_pipeline (ex_args None false)) in
  p_unet ex_pipeline = p_unet p2 /\ p_device ex_pipeline = p_device p2 /\
  generator (ex_args None false) = Some 42%Z /\
  cr_output (DDPMPipeline_Costum_ClsEmb_call ex_randn ex_random_bits ex_unet ex_step
               ex_set_timesteps ex_pipeline (ex_args None false) None)
  = cr_output (DDPMPipeline_Costum_ClsEmb_call ex_randn ex_random_bits ex_unet ex_step
                 ex_set_timesteps p2 (ex_args None false) None).
Proof.
  intros p2. split; [vm_compute; reflexivity|]. split; [vm_compute; reflexivity|].
  split; [reflexivity|].
  refine (proj1 (proj2 (proj2 (seeded_calls_reproducible ex_randn ex_random_bits ex_unet
                                 ex_step ex_set_timesteps ex_pipeline p2
                                 (ex_args None false) 42%Z None _ _ _))));
    vm_compute; reflexivity.
Defined.

Lemma noise_init_snapshot_unmodified_witness :
  return_dict (ex_args (Some "tensor"%string) false) = false /\
  output_type (ex_args (Some "tensor"%string) false) = Some "tensor"%string /\
  option_map result_noise
    (cr_output (DDPMPipeline_Costum_call ex_randn ex_unet ex_step ex_set_timesteps ex_pipeline
                  (ex_args (Some "tensor"%string) false)))
  = Some (Some (initial_noise ex_randn ex_pipeline (ex_args (Some "tensor"%string) false))).
Proof.
  split; [reflexivity|split; [reflexivity|]].
  apply (proj2 (proj2 (noise_init_snapshot_unmodified ex_randn ex_random_bits ex_unet ex_step
                         ex_set_timesteps ex_pipeline (ex_args (Some "tensor"%string) false)
                         None)) eq_refl eq_refl).
Defined.

Lemma other_output_type_returns_raw_image_witness :
  output_type (ex_args None false) <> Some "pil"%string /\
  output_type (ex_args None false) <> Some "tensor"%string /\
  (let s := DDPMPipeline_Costum_sample ex_randn ex_unet ex_step ex_set_timesteps ex_pipeline
              (ex_args None false) in
   let x := read (ls_frame s) (ls_image s) in
   cr_output (DDPMPipeline_Costum_call ex_randn ex_unet ex_step ex_set_timesteps ex_pipeline
                (ex_args None false))
   = Some (if return_dict (ex_args None false) then ImagePipelineOutput (ImgTensor x)
           else Tuple1 (ImgTensor x))).
Proof.
  assert (H1 : output_type (ex_args None false) <> Some "pil"%string) by (simpl; congruence).
  assert (H2 : output_type (ex_args None false) <> Some "tensor"%string) by (simpl; congruence).
  split; [exact H1|split; [exact H2|]].
  apply (proj1 (other_output_type_returns_raw_image ex_randn ex_random_bits ex_unet ex_step
                  ex_set_timesteps ex_pipeline (ex_args None false) None H1 H2)).
Defined.

Lemma output_batch_dim_is_batch_size_witness :
  option_map (fun r => batch_dim (result_images r))
    (cr_output (DDPMPipeline_Costum_ClsEmb_call ex_randn ex_random_bits ex_unet ex_step
                  ex_set_timesteps ex_pipeline (ex_args (Some "pil"%string) true) None))
  = Some (Some 2%nat).
Proof.
  pose proof (proj2 (output_batch_dim_is_batch_size ex_randn ex_random_bits ex_unet ex_step
                  ex_set_timesteps ex_pipeline (ex_args (Some "pil"%string) true) None
                  ltac:(intros; reflexivity)
                  ltac:(intros mo t x g y H; simpl in H; injection H as <-; reflexivity)))
    as H.
  destruct (cr_output _) as [r|] eqn:E.
  - simpl. f_equal. apply H. reflexivity.
  - vm_compute in E. discriminate E.
Defined.

(** ** Further properties of [__call__] *)

Section MoreLoopFacts.

Variable unet_forward : tensor -> Z -> option tensor -> tensor.
Variable scheduler_step : tensor -> Z -> tensor -> Z -> step_output.

(** The loop's events are its bodies, one per timestep of the schedule, in
    the order of the schedule. *)
Lemma denoise_loop_timesteps (ts : list Z) :
  forall cls img fr g img' fr' g' evs,
    denoise unet_forward scheduler_step ts cls img fr g = (img', fr', g', evs) ->
    loop_timesteps evs = Some ts.
Proof.
  induction ts as [|t ts IH]; intros cls img fr g img' fr' g' evs Hrun;
    cbn [denoise] in Hrun.
  - by injection Hrun as <- <- <- <-.
  - destruct (alloc _ fr) as [mo fr1].
    destruct (match so_prev _ with PrevFresh y => alloc y _ | PrevSameObject => _ end)
      as [img1 fr3].
    destruct (denoise _ _ ts cls img1 fr3 _) as [[[i4 fr4] g4] evs4] eqn:E4.
    injection Hrun as <- <- <- <-. simpl. rewrite Z.eqb_refl.
    by rewrite (IH _ _ _ _ _ _ _ _ E4).
Qed.


End MoreLoopFacts.


Section LoopChain.

Variable unet_forward : tensor -> Z -> option tensor -> tensor.
Variable scheduler_step : tensor -> Z -> tensor -> Z -> step_output.

Local Abbreviation run := (denoise unet_forward scheduler_step).

(** One loop body: the network sees the current image and the labels, the
    scheduler gets the network's output, and the loop goes on with the
    [prev_sample] of that step. *)
Lemma denoise_cons_spec (t : Z) (ts : list Z) (cls : option nat) (img : nat) (fr : frame)
    (g : Z) (img' : nat) (fr' : frame) (g' : Z) (evs : list event) :
  run (t :: ts) cls img fr g = (img', fr', g', evs) ->
  let x := read fr img in
  let l := option_map (read fr) cls in
  let out := scheduler_step (unet_forward x t l) t x g in
  exists img1 fr1 evs1,
    evs = EvUnet t x l :: EvStep t :: evs1 /\
    read fr1 img1 = prev_value out /\
    run ts cls img1 fr1 (so_gen out) = (img', fr', g', evs1).
Proof.
  intros Hrun x l out. cbn [denoise] in Hrun.
  destruct (alloc _ fr) as [mo fr1] eqn:E1.
  apply alloc_spec in E1 as (_ & _ & R1 & _). rewrite R1 in Hrun. fold x l out in Hrun.
  unfold prev_value. destruct (so_prev out) as [y|] eqn:Ep.
  - destruct (alloc y _) as [img1 fr3] eqn:E3.
    apply alloc_spec in E3 as (_ & _ & R3 & _).
    destruct (run ts cls img1 fr3 _) as [[[i4 fr4] g4] evs4] eqn:E4.
    injection Hrun as <- <- <- <-. exists img1, fr3, evs4. auto.
  - destruct (run ts cls img _ _) as [[[i4 fr4] g4] evs4] eqn:E4.
    injection Hrun as <- <- <- <-. eexists img, _, evs4.
    split; [reflexivity|split; [apply read_write_eq|exact E4]].
Qed.

(** Two consecutive loop bodies: the second network call receives the
    [prev_sample] of the first body's scheduler step. *)
Lemma denoise_chain (ts : list Z) :
  forall cls img fr g img' fr' g' evs pre t x l t' x' l' post,
    run ts cls img fr g = (img', fr', g', evs) ->
    evs = pre ++ EvUnet t x l :: EvStep t :: EvUnet t' x' l' :: post ->
    exists g0, x' = prev_value (scheduler_step (unet_forward x t l) t x g0).
Proof.
  induction ts as [|t0 ts IH];
    intros cls img fr g img' fr' g' evs pre t x l t' x' l' post Hrun Hev.
  - cbn [denoise] in Hrun. injection Hrun as _ _ _ <-. destruct pre; discriminate.
  - apply denoise_cons_spec in Hrun as (img1 & fr1 & evs1 & -> & R1 & Hrun1).
    destruct pre as [|e1 [|e2 pre]]; simpl in Hev.
    + injection Hev as <- <- <- _ Hev1. exists g.
      destruct ts as [|t1 ts1].
      * cbn [denoise] in Hrun1. injection Hrun1 as _ _ _ <-. discriminate.
      * apply denoise_cons_spec in Hrun1 as (img2 & fr2 & evs2 & -> & _ & _).
        injection Hev1 as _ <- _ _. exact R1.
    + discriminate Hev.
    + injection Hev as _ _ Hev1. exact (IH _ _ _ _ _ _ _ _ _ _ _ _ _ _ _ _ Hrun1 Hev1).
Qed.

(** The last loop body: the image the loop ends with is the [prev_sample] of
    the last scheduler step. *)
Lemma denoise_last (ts : list Z) :
  forall cls img fr g img' fr' g' evs pre t x l,
    run ts cls img fr g = (img', fr', g', evs) ->
    evs = pre ++ [EvUnet t x l; EvStep t] ->
    exists g0, read fr' img' = prev_value (scheduler_step (unet_forward x t l) t x g0).
Proof.
  induction ts as [|t0 ts IH];
    intros cls img fr g img' fr' g' evs pre t x l Hrun Hev.
  - cbn [denoise] in Hrun. injection Hrun as _ _ _ <-. destruct pre; discriminate.
  - apply denoise_cons_spec in Hrun as (img1 & fr1 & evs1 & -> & R1 & Hrun1).
    destruct pre as [|e1 [|e2 pre]]; simpl in Hev.
    + injection Hev as <- <- <- _ Hev1. exists g.
      destruct ts as [|t1 ts1].
      * cbn [denoise] in Hrun1. injection Hrun1 as <- <- _ _. exact R1.
      * apply denoise_cons_spec in Hrun1 as (img2 & fr2 & evs2 & -> & _ & _).
        discriminate.
    + discriminate Hev.
    + injection Hev as _ _ Hev1. exact (IH _ _ _ _ _ _ _ _ _ _ _ _ Hrun1 Hev1).
Qed.

End LoopChain.

Lemma finish_rng_timesteps (p : pipeline) (a : call_args) (g : Z) :
  p_timesteps (fst (finish_rng p a g)) = p_timesteps p.
Proof. unfold finish_rng. by destruct (generator a). Qed.

(** Events before the loop that are not network calls can be skipped when
    looking for a network call. *)
Lemma strip_prefix (ev0 evs pre post : list event) (e : event) :
  Forall (fun e => is_unet e = false) ev0 -> is_unet e = true ->
  ev0 ++ evs = pre ++ e :: post -> exists pre', evs = pre' ++ e :: post.
Proof.
  intros H0 He. revert pre. induction H0 as [|e0 ev0 He0 H0 IH]; intros pre Heq.
  - eauto.
  - destruct pre as [|e1 pre]; simpl in Heq; injection Heq as E1 Heq.
    + subst. congruence.
    + eauto.
Qed.

(** X1: both calls run the loop over the timesteps the scheduler returns for
    [num_inference_steps], in that order, each loop body being one network
    call followed by one scheduler step at the same timestep; the scheduler
    keeps these timesteps after the call. *)
Theorem loop_follows_scheduler_timesteps :
  forall randn random_bits unet_forward scheduler_step set_timesteps p a class_sample,
  (let r := DDPMPipeline_Costum_call randn unet_forward scheduler_step set_timesteps p a in
   p_timesteps (cr_pipeline r) = set_timesteps (num_inference_steps a) /\
   exists evs, cr_trace r = EvSetTimesteps (num_inference_steps a) :: evs /\
     loop_timesteps evs = Some (set_timesteps (num_inference_steps a))) /\
  (let r := DDPMPipeline_Costum_ClsEmb_call randn random_bits unet_forward scheduler_step
              set_timesteps p a class_sample in
   p_timesteps (cr_pipeline r) = set_timesteps (num_inference_steps a) /\
   exists ev0 evs, cr_trace r = EvSetTimesteps (num_inference_steps a) :: ev0 ++ evs /\
     (ev0 = [] \/ exists lab, ev0 = [EvRandint lab]) /\
     loop_timesteps evs = Some (set_timesteps (num_inference_steps a))).
Proof.
  intros randn random_bits unet_forward scheduler_step set_timesteps p a cs.
  cbv zeta. unfold DDPMPipeline_Costum_call, DDPMPipeline_Costum_ClsEmb_call.
  cbn [cr_trace cr_pipeline]. split.
  - destruct (Costum_sample_spec randn unet_forward scheduler_step set_timesteps p a)
      as (fr1 & evs & _ & _ & _ & _ & Hp & Hrun & Htr).
    rewrite finish_rng_timesteps, Hp. split; [reflexivity|].
    exists evs. split; [exact Htr|]. exact (denoise_loop_timesteps _ _ _ _ _ _ _ _ _ _ _ Hrun).
  - destruct (ClsEmb_sample_spec randn random_bits unet_forward scheduler_step set_timesteps
                p a cs)
      as (fr2 & img & cls & g2 & ev0 & evs & _ & _ & _ & _ & _ & _ & _ & _ & _ & _ & _
          & Hp & Hrun & Htr & Hev0).
    rewrite finish_rng_timesteps, Hp. split; [reflexivity|].
    exists ev0, evs. split; [exact Htr|]. split.
    + destruct cs; [left|right; eexists]; exact Hev0.
    + exact (denoise_loop_timesteps _ _ _ _ _ _ _ _ _ _ _ Hrun).
Qed.


(** X3: for both calls, when the scheduler returns no timestep, the network
    is never called and the output is the post-processed initial noise
    (packaged with the noise and the labels as usual). *)
Theorem empty_schedule_returns_initial_noise :
  forall randn random_bits unet_forward scheduler_step set_timesteps p a class_sample,
  set_timesteps (num_inference_steps a) = [] ->
  (cr_output (DDPMPipeline_Costum_call randn unet_forward scheduler_step set_timesteps p a)
   = option_map (package_Costum a (initial_noise randn p a))
       (postprocess (output_type a) (initial_noise randn p a)) /\
   filter is_unet
     (cr_trace (DDPMPipeline_Costum_call randn unet_forward scheduler_step set_timesteps p a))
   = []) /\
  (cr_output (DDPMPipeline_Costum_ClsEmb_call randn random_bits unet_forward scheduler_step
                set_timesteps p a class_sample)
   = option_map (package_ClsEmb a (initial_noise randn p a)
                   (labels_used randn random_bits p a class_sample))
       (postprocess (output_type a) (initial_noise randn p a)) /\
   filter is_unet
     (cr_trace (DDPMPipeline_Costum_ClsEmb_call randn random_bits unet_forward scheduler_step
                  set_timesteps p a class_sample))
   = []).
Proof.
  intros randn random_bits unet_forward scheduler_step set_timesteps p a cs Hst.
  unfold DDPMPipeline_Costum_call, DDPMPipeline_Costum_ClsEmb_call; cbn [cr_output cr_trace].
  split.
  - destruct (Costum_sample_spec randn unet_forward scheduler_step set_timesteps p a)
      as (fr1 & evs & _ & R0 & R1 & Hn & _ & Hrun & Htr).
    rewrite Hst in Hrun. cbn [denoise] in Hrun. injection Hrun as Ei Ef _ Ee.
    split.
    + rewrite <- Ei, <- Ef, Hn, R0, R1. reflexivity.
    + rewrite Htr, <- Ee. reflexivity.
  - destruct (ClsEmb_sample_spec randn random_bits unet_forward scheduler_step set_timesteps
                p a cs)
      as (fr2 & img & cls & g2 & ev0 & evs & _ & _ & _ & _ & _ & _ & _ & R0 & R1 & R2 & Hc
          & _ & Hrun & Htr & Hev0).
    rewrite Hst in Hrun. cbn [denoise] in Hrun. injection Hrun as Ei Ef _ Ee.
    split.
    + rewrite <- Ei, <- Ef, Hc. change (default 0%nat (Some cls)) with cls.
      rewrite R0, R1, R2. reflexivity.
    + rewrite Htr, <- Ee, Hev0. by destruct cs.
Qed.

(** X7: when the caller passes [class_sample], the conditional call draws no
    labels, and every network call receives the caller's labels. *)
Theorem caller_labels_no_draw_and_passed :
  forall randn random_bits unet_forward scheduler_step set_timesteps p a c,
  let tr := cr_trace (DDPMPipeline_Costum_ClsEmb_call randn random_bits unet_forward
                        scheduler_step set_timesteps p a (Some c)) in
  filter is_randint tr = [] /\
  Forall (fun e => unet_labels e = None \/ unet_labels e = Some (Some c)) tr.
Proof.
  intros randn random_bits unet_forward scheduler_step set_timesteps p a c tr.
  unfold tr, DDPMPipeline_Costum_ClsEmb_call; cbn [cr_trace].
  destruct (ClsEmb_sample_spec randn random_bits unet_forward scheduler_step set_timesteps
              p a (Some c))
    as (fr2 & img & cls & g2 & ev0 & evs & N & L1 & _ & L3 & _ & D2 & _ & _ & _ & R2 & _
        & _ & Hrun & Htr & Hev0).
  rewrite Htr, Hev0. simpl app.
  destruct (denoise_trace _ _ _ _ _ _ _ _ _ _ _ Hrun) as (_ & _ & Hr).
  destruct (denoise_frame _ _ _ _ _ _ _ _ _ _ _ cls Hrun ltac:(lia) ltac:(lia)
              (not_eq_sym D2)) as (_ & _ & F).
  split; [exact Hr|].
  constructor; [left; reflexivity|]. cbn [labels_used] in R2. rewrite <- R2.
  exact (F eq_refl).
Qed.


(** X9: for both calls, when the schedule is not empty, the first network
    call is at its first timestep, on the initial noise (with the labels
    used, in the conditional call), and it is followed by the scheduler step
    at that timestep; before it come only [set_timesteps] and, in the
    conditional call without caller labels, the drawing of the labels. *)
Theorem first_network_call_sees_initial_noise :
  forall randn random_bits unet_forward scheduler_step set_timesteps p a class_sample t ts,
  set_timesteps (num_inference_steps a) = t :: ts ->
  (exists rest,
     cr_trace (DDPMPipeline_Costum_call randn unet_forward scheduler_step set_timesteps p a)
     = EvSetTimesteps (num_inference_steps a)
         :: EvUnet t (initial_noise randn p a) None :: EvStep t :: rest) /\
  (exists rest,
     cr_trace (DDPMPipeline_Costum_ClsEmb_call randn random_bits unet_forward scheduler_step
                 set_timesteps p a class_sample)
     = EvSetTimesteps (num_inference_steps a) ::
         match class_sample with
         | Some _ => []
         | None => [EvRandint (fst (drawn_labels randn random_bits p a))]
         end ++
         EvUnet t (initial_noise randn p a)
           (Some (labels_used randn random_bits p a class_sample)) :: EvStep t :: rest).
Proof.
  intros randn random_bits unet_forward scheduler_step set_timesteps p a cs t ts Hst.
  unfold DDPMPipeline_Costum_call, DDPMPipeline_Costum_ClsEmb_call; cbn [cr_trace]. split.
  - destruct (Costum_sample_spec randn unet_forward scheduler_step set_timesteps p a)
      as (fr1 & evs & _ & R0 & _ & _ & _ & Hrun & Htr).
    rewrite Hst in Hrun. apply denoise_cons_spec in Hrun as (i1 & f1 & evs1 & Hev & _ & _).
    exists evs1. rewrite Htr, Hev, R0. reflexivity.
  - destruct (ClsEmb_sample_spec randn random_bits unet_forward scheduler_step set_timesteps
                p a cs)
      as (fr2 & img & cls & g2 & ev0 & evs & _ & _ & _ & _ & _ & _ & _ & R0 & _ & R2 & _
          & _ & Hrun & Htr & Hev0).
    rewrite Hst in Hrun. apply denoise_cons_spec in Hrun as (i1 & f1 & evs1 & Hev & _ & _).
    exists evs1. rewrite Htr, Hev, <- Hev0. cbn [option_map]. rewrite R0, R2. reflexivity.
Qed.

(** X10: for both calls, each network call after the first receives the
    [prev_sample] of the scheduler step that precedes it, that step being
    applied to the previous network call's output, timestep and input. *)
Theorem network_input_is_previous_prev_sample :
  forall randn random_bits unet_forward scheduler_step set_timesteps p a class_sample,
  (forall pre t x l t' x' l' post,
     cr_trace (DDPMPipeline_Costum_call randn unet_forward scheduler_step set_timesteps p a)
     = pre ++ EvUnet t x l :: EvStep t :: EvUnet t' x' l' :: post ->
     exists g0, x' = prev_value (scheduler_step (unet_forward x t l) t x g0)) /\
  (forall pre t x l t' x' l' post,
     cr_trace (DDPMPipeline_Costum_ClsEmb_call randn random_bits unet_forward scheduler_step
                 set_timesteps p a class_sample)
     = pre ++ EvUnet t x l :: EvStep t :: EvUnet t' x' l' :: post ->
     exists g0, x' = prev_value (scheduler_step (unet_forward x t l) t x g0)).
Proof.
  intros randn random_bits unet_forward scheduler_step set_timesteps p a cs.
  unfold DDPMPipeline_Costum_call, DDPMPipeline_Costum_ClsEmb_call; cbn [cr_trace].
  split; intros pre t x l t' x' l' post H.
  - destruct (Costum_sample_spec randn unet_forward scheduler_step set_timesteps p a)
      as (fr1 & evs & _ & _ & _ & _ & _ & Hrun & Htr).
    rewrite Htr in H. change (EvSetTimesteps ?n :: evs) with ([EvSetTimesteps n] ++ evs) in H.
    apply strip_prefix in H as [pre' H]; [|repeat constructor|reflexivity].
    exact (denoise_chain _ _ _ _ _ _ _ _ _ _ _ _ _ _ _ _ _ _ _ Hrun H).
  - destruct (ClsEmb_sample_spec randn random_bits unet_forward scheduler_step set_timesteps
                p a cs)
      as (fr2 & img & cls & g2 & ev0 & evs & _ & _ & _ & _ & _ & _ & _ & _ & _ & _ & _
          & _ & Hrun & Htr & Hev0).
    rewrite Htr, app_comm_cons in H.
    apply strip_prefix in H as [pre' H]; [| |reflexivity].
    + exact (denoise_chain _ _ _ _ _ _ _ _ _ _ _ _ _ _ _ _ _ _ _ Hrun H).
    + rewrite Hev0. destruct cs; repeat constructor.
Qed.

(** X11: for both calls, when the loop ran, the output is the post-processed
    [prev_sample] of the last scheduler step (packaged with the unmodified
    initial noise, and the labels used). *)
Theorem output_is_last_prev_sample :
  forall randn random_bits unet_forward scheduler_step set_timesteps p a class_sample,
  (forall pre t x l,
     cr_trace (DDPMPipeline_Costum_call randn unet_forward scheduler_step set_timesteps p a)
     = pre ++ [EvUnet t x l; EvStep t] ->
     exists g0,
       cr_output (DDPMPipeline_Costum_call randn unet_forward scheduler_step set_timesteps p a)
       = option_map (package_Costum a (initial_noise randn p a))
           (postprocess (output_type a)
              (prev_value (scheduler_step (unet_forward x t l) t x g0)))) /\
  (forall pre t x l,
     cr_trace (DDPMPipeline_Costum_ClsEmb_call randn random_bits unet_forward scheduler_step
                 set_timesteps p a class_sample)
     = pre ++ [EvUnet t x l; EvStep t] ->
     exists g0,
       cr_output (DDPMPipeline_Costum_ClsEmb_call randn random_bits unet_forward
                    scheduler_step set_timesteps p a class_sample)
       = option_map (package_ClsEmb a (initial_noise randn p a)
                       (labels_used randn random_bits p a class_sample))
           (postprocess (output_type a)
              (prev_value (scheduler_step (unet_forward x t l) t x g0)))).
Proof.
  intros randn random_bits unet_forward scheduler_step set_timesteps p a cs.
  unfold DDPMPipeline_Costum_call, DDPMPipeline_Costum_ClsEmb_call; cbn [cr_trace cr_output].
  split; intros pre t x l H.
  - destruct (Costum_sample_spec randn unet_forward scheduler_step set_timesteps p a)
      as (fr1 & evs & N & _ & R1 & Hn & _ & Hrun & Htr).
    rewrite Htr in H. change (EvSetTimesteps ?n :: evs) with ([EvSetTimesteps n] ++ evs) in H.
    apply strip_prefix in H as [pre' H]; [|repeat constructor|reflexivity].
    destruct (denoise_last _ _ _ _ _ _ _ _ _ _ _ _ _ _ _ Hrun H) as [g0 Hl].
    destruct (denoise_frame _ _ _ _ _ _ _ _ _ _ _ 1%nat Hrun ltac:(lia) ltac:(lia)
                ltac:(lia)) as (Rn & _ & _).
    exists g0. rewrite Hn, Rn, R1, Hl. reflexivity.
  - destruct (ClsEmb_sample_spec randn random_bits unet_forward scheduler_step set_timesteps
                p a cs)
      as (fr2 & img & cls & g2 & ev0 & evs & N & L1 & L2 & L3 & D1 & D2 & D3 & _ & R1 & R2
          & Hc & _ & Hrun & Htr & Hev0).
    rewrite Htr, app_comm_cons in H.
    apply strip_prefix in H as [pre' H];
      [| rewrite Hev0; destruct cs; repeat constructor | reflexivity].
    destruct (denoise_last _ _ _ _ _ _ _ _ _ _ _ _ _ _ _ Hrun H) as [g0 Hl].
    pose proof (fun H1 H2 => denoise_frame _ _ _ _ _ _ _ _ _ _ _ _ Hrun H1 H2 (not_eq_sym D1))
      as Fn.
    destruct (Fn ltac:(lia) ltac:(lia)) as (Rn & _ & _).
    destruct (denoise_frame _ _ _ _ _ _ _ _ _ _ _ cls Hrun ltac:(lia) ltac:(lia)
                (not_eq_sym D2)) as (Rc & _ & _).
    exists g0. rewrite Hc. change (default 0%nat (Some cls)) with cls.
    rewrite Rn, Rc, R1, R2, Hl. reflexivity.
Qed.

(** ** Post-processing into PIL images *)


Lemma postprocess_pil_shapes (ot : option string) (x : tensor) (b c h w : nat)
    (imgs : list tensor) :
  t_shape x = [b; c; h; w] -> h <> 1%nat -> w <> 1%nat ->
  postprocess ot x = Some (ImgPIL imgs) ->
  Forall (fun im => t_dtype im = UInt8 /\
                    t_shape im = (if Nat.eqb c 1 then [h; w] else [h; w; c])) imgs.
Proof.
  intros Hs Hh Hw. unfold postprocess. destruct (is_output_type ot "pil").
  2:{ destruct (is_output_type ot "tensor"); discriminate. }
  destruct (permute_0231 _) as [z|] eqn:Ez; [|discriminate].
  apply (permute_0231_shape _ _ b c h w) in Ez; [|exact Hs].
  rewrite (numpy_to_pil_4d z b h w c Ez).
  destruct (mapM _ _) as [l|] eqn:Em; [|discriminate].
  intros E; injection E as <-. apply mapM_Some_1 in Em.
  induction Em as [|d im ds ims Him _ IH]; constructor; [|exact IH].
  destruct (if Nat.eqb c 1 then _ else _) as [sh|] eqn:Epic; [|discriminate Him].
  injection Him as <-. split; [reflexivity|]. exact (pil_pic_some h w c sh Hh Hw Epic).
Qed.


Lemma package_Costum_images (a : call_args) (n : tensor) (i : images) :
  result_images (package_Costum a n i) = i.
Proof. unfold package_Costum. by destruct (return_dict a), (is_output_type _ _). Qed.

Lemma package_ClsEmb_images (a : call_args) (n c : tensor) (i : images) :
  result_images (package_ClsEmb a n c i) = i.
Proof. unfold package_ClsEmb. by destruct (return_dict a), (is_output_type _ _). Qed.

(** ** The outputs of the two calls *)

Section OutputFacts.

Variable randn : nat -> Z -> list scalar * Z.
Variable random_bits : Z -> Z * Z.
Variable unet_forward : tensor -> Z -> option tensor -> tensor.
Variable scheduler_step : tensor -> Z -> tensor -> Z -> step_output.
Variable set_timesteps : nat -> list Z.

Lemma Costum_output_spec (p : pipeline) (a : call_args) :
  let s := DDPMPipeline_Costum_sample randn unet_forward scheduler_step set_timesteps p a in
  cr_output (DDPMPipeline_Costum_call randn unet_forward scheduler_step set_timesteps p a)
  = option_map (package_Costum a (initial_noise randn p a))
      (postprocess (output_type a) (read (ls_frame s) (ls_image s))) /\
  ((forall mo t x g, t_shape (so_sample_after (scheduler_step mo t x g)) = t_shape x) ->
   (forall mo t x g y, so_prev (scheduler_step mo t x g) = PrevFresh y -> t_shape y = t_shape x) ->
   t_shape (read (ls_frame s) (ls_image s))
   = image_shape (batch_size a) (unet_config_of (p_unet p))).
Proof.
  intros s. unfold DDPMPipeline_Costum_call; cbn [cr_output]. fold s.
  destruct (Costum_sample_spec randn unet_forward scheduler_step set_timesteps p a)
    as (fr1 & evs & N & R0 & R1 & Hn & _ & Hrun & _). fold s in Hn, Hrun.
  split.
  - destruct (denoise_frame _ _ _ _ _ _ _ _ _ _ _ 1%nat Hrun ltac:(lia) ltac:(lia)
                ltac:(lia)) as (Rn & _ & _).
    rewrite Hn, Rn, R1. reflexivity.
  - intros Hs Hp. rewrite (denoise_shape _ _ _ Hs Hp _ _ _ _ _ _ _ _ Hrun), R0.
    apply initial_noise_shape.
Qed.

Lemma ClsEmb_output_spec (p : pipeline) (a : call_args) (class_sample : option tensor) :
  let s := DDPMPipeline_Costum_ClsEmb_sample randn random_bits unet_forward scheduler_step
             set_timesteps p a class_sample in
  cr_output (DDPMPipeline_Costum_ClsEmb_call randn random_bits unet_forward scheduler_step
               set_timesteps p a class_sample)
  = option_map (package_ClsEmb a (initial_noise randn p a)
                  (labels_used randn random_bits p a class_sample))
      (postprocess (output_type a) (read (ls_frame s) (ls_image s))) /\
  ((forall mo t x g, t_shape (so_sample_after (scheduler_step mo t x g)) = t_shape x) ->
   (forall mo t x g y, so_prev (scheduler_step mo t x g) = PrevFresh y -> t_shape y = t_shape x) ->
   t_shape (read (ls_frame s) (ls_image s))
   = image_shape (batch_size a) (unet_config_of (p_unet p))).
Proof.
  intros s. unfold DDPMPipeline_Costum_ClsEmb_call; cbn [cr_output]. fold s.
  destruct (ClsEmb_sample_spec randn random_bits unet_forward scheduler_step set_timesteps
              p a class_sample)
    as (fr2 & img & cls & g2 & ev0 & evs & N & L1 & L2 & L3 & D1 & D2 & D3 & R0 & R1 & R2
        & Hc & _ & Hrun & _ & _).
  fold s in L2, D1, D3, R1, Hc, Hrun.
  split.
  - pose proof (fun H1 H2 => denoise_frame _ _ _ _ _ _ _ _ _ _ _ _ Hrun H1 H2 (not_eq_sym D1))
      as Fn.
    destruct (Fn ltac:(lia) ltac:(lia)) as (Rn & _ & _).
    destruct (denoise_frame _ _ _ _ _ _ _ _ _ _ _ cls Hrun ltac:(lia) ltac:(lia)
                (not_eq_sym D2)) as (Rc & _ & _).
    rewrite Hc. change (default 0%nat (Some cls)) with cls.
    rewrite Rn, Rc, R1, R2. reflexivity.
  - intros Hs Hp. rewrite (denoise_shape _ _ _ Hs Hp _ _ _ _ _ _ _ _ Hrun), R0.
    apply initial_noise_shape.
Qed.

End OutputFacts.



(** X6: for both calls, with an integer [sample_size] [s] other than 1, one
    or three input channels [C] (the arrays PIL takes as mode "L" or "RGB"
    images), and a scheduler that keeps the shape of the sample, every PIL
    image is a uint8 array of shape [(s, s)] when [C = 1] (squeezed, mode
    "L") and [(s, s, C)] otherwise. *)
Theorem pil_image_shapes :
  forall randn random_bits unet_forward scheduler_step set_timesteps p a class_sample s,
  sample_size (unet_config_of (p_unet p)) = SizeInt s -> s <> 1%nat ->
  (in_channels (unet_config_of (p_unet p)) = 1%nat \/
   in_channels (unet_config_of (p_unet p)) = 3%nat) ->
  (forall mo t x g, t_shape (so_sample_after (scheduler_step mo t x g)) = t_shape x) ->
  (forall mo t x g y, so_prev (scheduler_step mo t x g) = PrevFresh y -> t_shape y = t_shape x) ->
  let C := in_channels (unet_config_of (p_unet p)) in
  let shapes_ok := Forall (fun im => t_dtype im = UInt8 /\
                     t_shape im = (if Nat.eqb C 1 then [s; s] else [s; s; C])) in
  (forall r imgs,
     cr_output (DDPMPipeline_Costum_call randn unet_forward scheduler_step set_timesteps p a)
     = Some r -> result_images r = ImgPIL imgs -> shapes_ok imgs) /\
  (forall r imgs,
     cr_output (DDPMPipeline_Costum_ClsEmb_call randn random_bits unet_forward scheduler_step
                  set_timesteps p a class_sample)
     = Some r -> result_images r = ImgPIL imgs -> shapes_ok imgs).
Proof.
  intros randn random_bits unet_forward scheduler_step set_timesteps p a cs s Hsz Hs1 _ Hs Hp
    C shapes_ok.
  assert (Hshape : image_shape (batch_size a) (unet_config_of (p_unet p))
                   = [batch_size a; C; s; s]) by (unfold image_shape; rewrite Hsz; reflexivity).
  split; intros r imgs Hr Hi.
  - destruct (Costum_output_spec randn unet_forward scheduler_step set_timesteps p a)
      as [E Sh].
    rewrite E in Hr. destruct (postprocess _ _) as [i|] eqn:Ep; [|discriminate].
    injection Hr as <-. rewrite package_Costum_images in Hi. subst i.
    rewrite Hshape in Sh.
    exact (postprocess_pil_shapes _ _ _ _ _ _ _ (Sh Hs Hp) Hs1 Hs1 Ep).
  - destruct (ClsEmb_output_spec randn random_bits unet_forward scheduler_step set_timesteps
                p a cs) as [E Sh].
    rewrite E in Hr. destruct (postprocess _ _) as [i|] eqn:Ep; [|discriminate].
    injection Hr as <-. rewrite package_ClsEmb_images in Hi. subst i.
    rewrite Hshape in Sh.
    exact (postprocess_pil_shapes _ _ _ _ _ _ _ (Sh Hs Hp) Hs1 Hs1 Ep).
Qed.


(** ** Witnesses of the further properties *)

Lemma empty_schedule_returns_initial_noise_witness :
  ex_set_timesteps (num_inference_steps (mkArgs 2 (Some 42%Z) 0 (Some "tensor"%string) false))
  = [] /\
  cr_output (DDPMPipeline_Costum_call ex_randn ex_unet ex_step ex_set_timesteps ex_pipeline
               (mkArgs 2 (Some 42%Z) 0 (Some "tensor"%string) false))
  = option_map (package_Costum (mkArgs 2 (Some 42%Z) 0 (Some "tensor"%string) false)
                  (initial_noise ex_randn ex_pipeline
                     (mkArgs 2 (Some 42%Z) 0 (Some "tensor"%string) false)))
      (postprocess (Some "tensor"%string)
         (initial_noise ex_randn ex_pipeline
            (mkArgs 2 (Some 42%Z) 0 (Some "tensor"%string) false))).
Proof.
  split; [reflexivity|].
  apply (proj1 (proj1 (empty_schedule_returns_initial_noise ex_randn ex_random_bits ex_unet
                         ex_step ex_set_timesteps ex_pipeline
                         (mkArgs 2 (Some 42%Z) 0 (Some "tensor"%string) false) None eq_refl))).
Defined.

Lemma first_network_call_sees_initial_noise_witness :
  ex_set_timesteps (num_inference_steps (ex_args None false)) = 2%Z :: [1%Z; 0%Z] /\
  exists rest,
    cr_trace (DDPMPipeline_Costum_ClsEmb_call ex_randn ex_random_bits ex_unet ex_step
                ex_set_timesteps ex_pipeline (ex_args None false) (Some ex_labels))
    = EvSetTimesteps 3 ::
        EvUnet 2 (initial_noise ex_randn ex_pipeline (ex_args None false))
          (Some ex_labels) :: EvStep 2 :: rest.
Proof.
  split; [reflexivity|].
  apply (proj2 (first_network_call_sees_initial_noise ex_randn ex_random_bits ex_unet ex_step
                  ex_set_timesteps ex_pipeline (ex_args None false) (Some ex_labels) 2%Z
                  [1%Z; 0%Z] eq_refl)).
Defined.


Lemma pil_image_shapes_witness :
  exists r imgs,
    cr_output (DDPMPipeline_Costum_ClsEmb_call ex_randn ex_random_bits ex_unet ex_step
                 ex_set_timesteps ex_pipeline (ex_args (Some "pil"%string) true) None)
    = Some r /\ result_images r = ImgPIL imgs /\ length imgs = 2%nat /\
    Forall (fun im => t_dtype im = UInt8 /\ t_shape im = [2%nat; 2%nat]) imgs.
Proof.
  pose proof (proj2 (pil_image_shapes ex_randn ex_random_bits ex_unet ex_step ex_set_timesteps
                  ex_pipeline (ex_args (Some "pil"%string) true) None 2%nat eq_refl
                  ltac:(lia) (or_introl eq_refl)
                  ltac:(intros; reflexivity)
                  ltac:(intros mo t x g y H; simpl in H; injection H as <-; reflexivity)))
    as H.
  destruct (cr_output (DDPMPipeline_Costum_ClsEmb_call ex_randn ex_random_bits ex_unet ex_step
                         ex_set_timesteps ex_pipeline (ex_args (Some "pil"%string) true) None))
    as [r|] eqn:E; [|vm_compute in E; discriminate E].
  destruct (result_images r) as [x|imgs] eqn:Ei.
  - vm_compute in E. injection E as <-. discriminate Ei.
  - exists r, imgs. split; [reflexivity|split; [exact Ei|split]].
    + vm_compute in E. injection E as <-. vm_compute in Ei. injection Ei as <-. reflexivity.
    + exact (H r imgs eq_refl Ei).
Defined.

